(** * A shallow embedding of [scraper.py]

    The scraper drives a browser page, collects one record per item element
    and projects the records onto a fixed list of columns.  This file embeds
    the traversal and extraction functions of [scraper.py] and proves the
    properties its specification states about them.

    Conventions of the embedding:
    - a Python [str] is a [string]; every character stands for the code
      point of the same number (0 to 255);
    - Python's [None] in a [str | None] position is [None : option string];
    - a Python [int] is a [Z];
    - a [dict] is an insertion-ordered association list with unique keys
      ([dict_set] overwrites in place, as assignment to a key does);
    - the browser page is an abstract state behind the [PageDriver]
      interface; every call on the page object is appended to a trace. *)

From Stdlib Require Import List String Ascii ZArith Bool Arith Lia.
From Stdlib Require Import DecimalString.
Import ListNotations.

#[local] Open Scope string_scope.
#[local] Open Scope list_scope.

(* ================================================================= *)
(** * Python strings *)

Module PyStr.

(** [str.isspace] on one character: the code points below 256 which Python
    treats as whitespace (TAB, LF, VT, FF, CR, FS, GS, RS, US, SPACE, NEL,
    NBSP). *)
Definition isspace (c : ascii) : bool :=
  let n := nat_of_ascii c in
  (((9 <=? n) && (n <=? 13)) || ((28 <=? n) && (n <=? 32))
   || (n =? 133) || (n =? 160))%nat.

(** Truthiness of a [str]: only the empty string is falsy. *)
Definition nonempty (s : string) : bool :=
  match s with
  | EmptyString => false
  | String _ _ => true
  end.

(** Does the string begin with a whitespace character? *)
Definition starts_with_space (s : string) : bool :=
  match s with
  | EmptyString => false
  | String c _ => isspace c
  end.

(** Does the string begin with a character of a word? *)
Definition starts_word (s : string) : bool :=
  match s with
  | EmptyString => false
  | String c _ => negb (isspace c)
  end.

(** Put a character in front of the first word of a list of words. *)
Definition cons_head (c : ascii) (ws : list string) : list string :=
  match ws with
  | [] => [String c EmptyString]
  | w :: ws' => String c w :: ws'
  end.

(** [value.split()]: the maximal runs of non-whitespace characters, in
    order; whitespace only separates. *)
Fixpoint split (s : string) : list string :=
  match s with
  | EmptyString => []
  | String c rest =>
      if isspace c then split rest
      else if starts_word rest then cons_head c (split rest)
      else String c EmptyString :: split rest
  end.

(** [sep.join(words)]. *)
Definition join (sep : string) (ws : list string) : string :=
  String.concat sep ws.

(** [value.startswith(p)]. *)
Definition startswith (p s : string) : bool := String.prefix p s.

(** Drop the first [n] characters. *)
Fixpoint drop (n : nat) (s : string) : string :=
  match n, s with
  | O, _ => s
  | S _, EmptyString => EmptyString
  | S n', String _ rest => drop n' rest
  end.

(** [value.replace(old, new, 1)]: the first occurrence of [old], scanning
    from the left, is replaced by [new]; a string without an occurrence is
    returned as it is. *)
Fixpoint replace_first (old new s : string) : string :=
  if startswith old s then new ++ drop (String.length old) s
  else match s with
       | EmptyString => EmptyString
       | String c rest => String c (replace_first old new rest)
       end.

End PyStr.

(* ================================================================= *)
(** * Text normalization *)

(** [normalize_text] of [scraper.py]. *)
Definition normalize_text (value : option string) : option string :=
  match value with
  | None => None
  | Some v =>
      let cleaned := PyStr.join " " (PyStr.split v) in
      if PyStr.nonempty cleaned then Some cleaned else None
  end.

(** The specification's wording of the same operation, written
    independently of [split] and [join]: every run of whitespace becomes
    one ASCII space, then leading and trailing whitespace is trimmed, and an
    empty result is replaced by null. *)
Module NormalizeSpec.

Fixpoint collapse_runs (s : string) : string :=
  match s with
  | EmptyString => EmptyString
  | String c rest =>
      if PyStr.isspace c then
        if PyStr.starts_with_space rest then collapse_runs rest
        else String " " (collapse_runs rest)
      else String c (collapse_runs rest)
  end.

Fixpoint trim_left (s : string) : string :=
  match s with
  | EmptyString => EmptyString
  | String c rest => if PyStr.isspace c then trim_left rest else s
  end.

Fixpoint trim_right (s : string) : string :=
  match s with
  | EmptyString => EmptyString
  | String c rest =>
      match trim_right rest with
      | EmptyString => if PyStr.isspace c then EmptyString else String c EmptyString
      | kept => String c kept
      end
  end.

Definition trim (s : string) : string := trim_left (trim_right s).

Definition normalized (s : string) : option string :=
  match trim (collapse_runs s) with
  | EmptyString => None
  | t => Some t
  end.

End NormalizeSpec.

(** The text [" ".join(value.split())]. *)
Definition joined (s : string) : string := PyStr.join " " (PyStr.split s).

(** The separator owed in front of the words of [s] when something
    precedes them. *)
Definition gap (s : string) : string :=
  if PyStr.starts_with_space s then
    match PyStr.split s with
    | [] => ""
    | _ :: _ => " "
    end
  else "".

(** Is every character of the string whitespace (the empty string
    included)? *)
Fixpoint all_space (s : string) : bool :=
  match s with
  | EmptyString => true
  | String c rest => PyStr.isspace c && all_space rest
  end.

(** The characters of the string which are not whitespace, in order. *)
Fixpoint nonspace_chars (s : string) : string :=
  match s with
  | EmptyString => EmptyString
  | String c rest =>
      if PyStr.isspace c then nonspace_chars rest
      else String c (nonspace_chars rest)
  end.

(** A checker for single-spaced text.  [tidy_from after_space s] reads [s]
    knowing whether the character before it was whitespace (or the start of
    the text): a whitespace character must be the ASCII space and must not
    follow whitespace or the start, and the text must not end on one. *)
Fixpoint tidy_from (after_space : bool) (s : string) : bool :=
  match s with
  | EmptyString => negb after_space
  | String c rest =>
      if PyStr.isspace c then
        Ascii.eqb c " " && negb after_space && tidy_from true rest
      else tidy_from false rest
  end.

(** Non-empty text of words separated by single ASCII spaces: no other
    whitespace, none at either end, none doubled. *)
Definition tidy (s : string) : bool := tidy_from true s.

(** Characters used in examples. *)
Definition LF : ascii := "010"%char.
Definition TAB : ascii := "009"%char.

(** The specification's sample input: two spaces, a, newline, tab, space, b,
    two spaces. *)
Definition mixed_whitespace_sample : string :=
  "  a" ++ String LF (String TAB " b  ").

(* ================================================================= *)
(** * Python dictionaries *)

Module PyDict.

(** A [dict] with string keys: the keys in insertion order, each at most
    once. *)
Definition dict (V : Type) : Type := list (string * V).

(** [d[k] = v]: the value of an existing key is overwritten where the key
    stands, a new key goes to the end. *)
Fixpoint dict_set {V : Type} (k : string) (v : V) (d : dict V) : dict V :=
  match d with
  | [] => [(k, v)]
  | (k', v') :: d' =>
      if String.eqb k k' then (k, v) :: d' else (k', v') :: dict_set k v d'
  end.

(** Lookup of a key: [None] when the key is absent. *)
Fixpoint dict_get {V : Type} (k : string) (d : dict V) : option V :=
  match d with
  | [] => None
  | (k', v) :: d' => if String.eqb k k' then Some v else dict_get k d'
  end.

(** [k in d]. *)
Definition dict_mem {V : Type} (k : string) (d : dict V) : bool :=
  match dict_get k d with
  | Some _ => true
  | None => false
  end.

(** [list(d.keys())]. *)
Definition keys {V : Type} (d : dict V) : list string := map fst d.

(** [d.get(key, default)] on an optional entry of a configuration. *)
Definition get_or {A : Type} (entry : option A) (default : A) : A :=
  match entry with
  | Some a => a
  | None => default
  end.

(** Is the string [x] an element of [l]? *)
Definition mem (x : string) (l : list string) : bool :=
  existsb (String.eqb x) l.

(** The distinct elements of a list, each at the place of its first
    occurrence: the key order of a dict filled from the list. *)
Definition add_key (seen : list string) (k : string) : list string :=
  if mem k seen then seen else seen ++ [k].

Definition distinct (l : list string) : list string :=
  fold_left add_key l [].

End PyDict.

Import PyDict.

(** A record of the result set: field name to normalized text or null. *)
Definition record : Type := dict (option string).

(** [record.get(col)]: null both for an absent key and for a null value. *)
Definition record_get (col : string) (r : record) : option string :=
  match dict_get col r with
  | Some v => v
  | None => None
  end.

(* ================================================================= *)
(** * Schema projection *)

(** The comprehension [{col: record.get(col) for col in columns}], one
    column at a time. *)
Fixpoint project_onto (r : record) (columns : list string) (out : record)
  : record :=
  match columns with
  | [] => out
  | col :: columns' =>
      project_onto r columns' (dict_set col (record_get col r) out)
  end.

Definition project (r : record) (columns : list string) : record :=
  project_onto r columns [].

(** The loop of [ensure_columns]: [normalized] is the list built so far. *)
Fixpoint ensure_columns_from (records : list record) (columns : list string)
  (normalized : list record) : list record :=
  match records with
  | [] => normalized
  | r :: records' =>
      ensure_columns_from records' columns (normalized ++ [project r columns])
  end.

(** [ensure_columns] of [scraper.py]. *)
Definition ensure_columns (records : list record) (columns : list string)
  : list record :=
  ensure_columns_from records columns [].

Definition DEFAULT_COLUMNS : list string :=
  ["company_name"; "address"; "email"; "website"; "phone"; "country"; "field"].

(* ================================================================= *)
(** * Configuration *)

(** A field of the extraction schema: a bare selector string, or a mapping
    with the optional keys [selector] and [attr]. *)
Inductive field_config : Type :=
| FieldSelector (selector : string)
| FieldMapping (selector : option string) (attr : option string).

(** The [scroll] mapping; [None] is an absent key. *)
Record scroll_config : Type := {
  sc_max_scrolls : option Z;
  sc_pause_ms : option Z;
  sc_stop_after_unchanged : option Z
}.

(** The [pagination] mapping. *)
Record pagination_config : Type := {
  pg_next_button_selector : option string;
  pg_url_template : option string;
  pg_start_page : option Z;
  pg_max_pages : option Z;
  pg_pause_ms : option Z
}.

(** The [extraction] mapping. *)
Record extraction_config : Type := {
  ex_item_selector : option string;
  ex_fields : option (dict field_config)
}.

(** The configuration mapping read by [main] (the keys [output_file] and
    [headful] concern the browser process and the output file only). *)
Record config : Type := {
  cfg_start_urls : option (list string);
  cfg_mode : option string;
  cfg_scroll : option scroll_config;
  cfg_pagination : option pagination_config;
  cfg_extraction : option extraction_config;
  cfg_columns : option (list string);
  cfg_between_urls_pause_s : option Z
}.

Definition empty_scroll_config : scroll_config :=
  {| sc_max_scrolls := None; sc_pause_ms := None;
     sc_stop_after_unchanged := None |}.

Definition empty_pagination_config : pagination_config :=
  {| pg_next_button_selector := None; pg_url_template := None;
     pg_start_page := None; pg_max_pages := None; pg_pause_ms := None |}.

(** Truthiness of an optional string: [None] and the empty string are
    falsy. *)
Definition truthy (o : option string) : bool :=
  match o with
  | Some s => PyStr.nonempty s
  | None => false
  end.

(** [range(n)] runs [Z.to_nat n] times: not at all for [n <= 0]. *)
Definition range_len (n : Z) : nat := Z.to_nat n.

(** [range(start, start + count)]. *)
Definition range_from (start count : Z) : list Z :=
  map (fun i => (start + Z.of_nat i)%Z) (seq 0 (range_len count)).

(* ================================================================= *)
(** * Effects: exceptions and the state of the run *)

(** The exceptions [scraper.py] raises itself. *)
Inductive exn : Type :=
| ValueError (message : string)
| KeyError (key : string).

Inductive outcome (A : Type) : Type :=
| Return (a : A)
| Raise (e : exn).

Arguments Return {A} a.
Arguments Raise {A} e.

(** A computation over a state [W]: it returns or raises, and leaves a
    state in both cases. *)
Definition M (W A : Type) : Type := W -> outcome A * W.

Definition ret {W A : Type} (a : A) : M W A := fun w => (Return a, w).

Definition raise {W A : Type} (e : exn) : M W A := fun w => (Raise e, w).

Definition bind {W A B : Type} (c : M W A) (k : A -> M W B) : M W B :=
  fun w =>
    match c w with
    | (Return a, w') => k a w'
    | (Raise e, w') => (Raise e, w')
    end.

Notation "x <- c ;; k" := (bind c (fun x => k))
  (at level 61, c at next level, right associativity).
Notation "c ;;; k" := (bind c (fun _ => k))
  (at level 61, right associativity).

(** [mapping[key]]: a [KeyError] when the key is absent. *)
Definition subscript {W A : Type} (key : string) (entry : option A) : M W A :=
  match entry with
  | Some a => ret a
  | None => raise (KeyError key)
  end.

(** One entry of the trace per call on the page object (and per
    [time.sleep]), in the order of the calls. *)
Inductive event : Type :=
| Goto (url : string)
| ScrollToBottom
| WaitForTimeout (ms : Z)
| ReadHeight (height : Z)
| QuerySelector (selector : string)
| QuerySelectorAll (selector : string)
| Click
| Sleep (seconds : Z).

(** The page driver: what the browser page does on each call.  [Page] is
    the state of the browser page, [Element] an element handle. *)
Class PageDriver (Page Element : Type) : Type := {
  (** [page.goto(url, wait_until="networkidle")] *)
  drv_goto : string -> Page -> Page;
  (** [page.evaluate("window.scrollTo(0, document.body.scrollHeight)")] *)
  drv_scroll_to_bottom : Page -> Page;
  (** [page.evaluate("document.body.scrollHeight")] *)
  drv_scroll_height : Page -> Z;
  (** [page.wait_for_timeout(ms)] *)
  drv_wait_for_timeout : Z -> Page -> Page;
  (** [page.query_selector(selector)] *)
  drv_query_selector : string -> Page -> option Element;
  (** [page.query_selector_all(selector)], in document order *)
  drv_query_selector_all : string -> Page -> list Element;
  (** [element.click()] *)
  drv_click : Element -> Page -> Page;
  (** [time.sleep(seconds)]: what happens to the page meanwhile *)
  drv_sleep : Z -> Page -> Page;
  (** [element.query_selector(selector)] *)
  el_query_selector : string -> Element -> option Element;
  (** [element.inner_text()] *)
  el_inner_text : Element -> string;
  (** [element.get_attribute(name)] *)
  el_get_attribute : string -> Element -> option string;
  (** [url_template.format(page=page_number)] *)
  format_page : string -> Z -> string
}.

(** The state of a run: the browser page and the trace of the calls made
    so far, oldest first. *)
Record World (Page : Type) : Type := {
  w_page : Page;
  w_trace : list event
}.

Arguments w_page {Page} _.
Arguments w_trace {Page} _.

Section Scraper.

Context {Page Element : Type} `{PageDriver Page Element}.

(** A call on the page: the page moves on and the call is logged. *)
Definition call (e : event) (f : Page -> Page) : M (World Page) unit :=
  fun w => (Return tt, {| w_page := f (w_page w); w_trace := w_trace w ++ [e] |}).

(** A query of the page: the page stays and the query is logged. *)
Definition query {A : Type} (e : A -> event) (f : Page -> A) : M (World Page) A :=
  fun w =>
    let a := f (w_page w) in
    (Return a, {| w_page := w_page w; w_trace := w_trace w ++ [e a] |}).

Definition page_goto (url : string) : M (World Page) unit :=
  call (Goto url) (drv_goto url).

Definition page_scroll_to_bottom : M (World Page) unit :=
  call ScrollToBottom drv_scroll_to_bottom.

Definition page_wait_for_timeout (ms : Z) : M (World Page) unit :=
  call (WaitForTimeout ms) (drv_wait_for_timeout ms).

Definition page_scroll_height : M (World Page) Z :=
  query ReadHeight drv_scroll_height.

Definition page_query_selector (selector : string)
  : M (World Page) (option Element) :=
  query (fun _ => QuerySelector selector) (drv_query_selector selector).

Definition page_query_selector_all (selector : string)
  : M (World Page) (list Element) :=
  query (fun _ => QuerySelectorAll selector) (drv_query_selector_all selector).

Definition element_click (e : Element) : M (World Page) unit :=
  call Click (drv_click e).

Definition time_sleep (seconds : Z) : M (World Page) unit :=
  call (Sleep seconds) (drv_sleep seconds).

(* ----------------------------------------------------------------- *)
(** ** Field and record extraction *)

(** [extract_value] of [scraper.py]. *)
Definition extract_value (element : Element) (fc : field_config)
  : option string :=
  match fc with
  | FieldSelector selector =>
      match el_query_selector selector element with
      | None => None
      | Some target => normalize_text (Some (el_inner_text target))
      end
  | FieldMapping selector attr =>
      match selector with
      | None => None
      | Some sel =>
          if negb (PyStr.nonempty sel) then None
          else
            match el_query_selector sel element with
            | None => None
            | Some target =>
                match attr with
                | Some a =>
                    if PyStr.nonempty a then
                      let value := el_get_attribute a target in
                      let value :=
                        match value with
                        | Some v =>
                            if PyStr.nonempty v && String.eqb a "href"
                               && PyStr.startswith "mailto:" v
                            then Some (PyStr.replace_first "mailto:" "" v)
                            else value
                        | None => value
                        end in
                      normalize_text value
                    else normalize_text (Some (el_inner_text target))
                | None => normalize_text (Some (el_inner_text target))
                end
            end
      end
  end.

(** The inner loop of [extract_items]: [record[field_name] = ...] for
    every field of the schema, in the order of the mapping. *)
Fixpoint fill_record (element : Element) (fields : dict field_config)
  (rec : record) : record :=
  match fields with
  | [] => rec
  | (field_name, fc) :: fields' =>
      fill_record element fields'
        (dict_set field_name (extract_value element fc) rec)
  end.

(** The outer loop of [extract_items]: one record appended per element. *)
Fixpoint collect_items (elements : list Element) (fields : dict field_config)
  (items : list record) : list record :=
  match elements with
  | [] => items
  | element :: elements' =>
      collect_items elements' fields (items ++ [fill_record element fields []])
  end.

(** [extract_items] of [scraper.py]. *)
Definition extract_items (cfg : config) : M (World Page) (list record) :=
  extraction <- subscript "extraction" (cfg_extraction cfg) ;;
  item_selector <- subscript "item_selector" (ex_item_selector extraction) ;;
  fields <- subscript "fields" (ex_fields extraction) ;;
  elements <- page_query_selector_all item_selector ;;
  ret (collect_items elements fields []).

(* ----------------------------------------------------------------- *)
(** ** Traversal strategies *)

(** The loop of [scroll_page] with [remaining] iterations of
    [range(max_scrolls)] left; [unchanged] and [previous_height] are the
    loop's variables. *)
Fixpoint scroll_loop (remaining : nat) (pause_ms stop_after_unchanged : Z)
  (unchanged previous_height : Z) : M (World Page) unit :=
  match remaining with
  | O => ret tt
  | S remaining' =>
      page_scroll_to_bottom ;;;
      page_wait_for_timeout pause_ms ;;;
      current_height <- page_scroll_height ;;
      let unchanged :=
        if (current_height =? previous_height)%Z then (unchanged + 1)%Z
        else 0%Z in
      let previous_height := current_height in
      if (unchanged >=? stop_after_unchanged)%Z then ret tt
      else scroll_loop remaining' pause_ms stop_after_unchanged
             unchanged previous_height
  end.

(** [scroll_page] of [scraper.py]. *)
Definition scroll_page (sc : scroll_config) : M (World Page) unit :=
  let max_scrolls := get_or (sc_max_scrolls sc) 50%Z in
  let pause_ms := get_or (sc_pause_ms sc) 1200%Z in
  let stop_after_unchanged := get_or (sc_stop_after_unchanged sc) 3%Z in
  scroll_loop (range_len max_scrolls) pause_ms stop_after_unchanged 0%Z 0%Z.

(** The loop of [paginate] with [remaining] iterations of
    [range(max_pages)] left. *)
Fixpoint paginate_loop (remaining : nat) (pc : pagination_config)
  (extract_callback : M (World Page) (list record)) (results : list record)
  : M (World Page) (list record) :=
  match remaining with
  | O => ret results
  | S remaining' =>
      extracted <- extract_callback ;;
      let results := results ++ extracted in
      if negb (truthy (pg_next_button_selector pc)) then ret results
      else
        next_button <-
          page_query_selector (get_or (pg_next_button_selector pc) "") ;;
        match next_button with
        | None => ret results
        | Some button =>
            element_click button ;;;
            page_wait_for_timeout (get_or (pg_pause_ms pc) 1500%Z) ;;;
            paginate_loop remaining' pc extract_callback results
        end
  end.

(** [paginate] of [scraper.py]. *)
Definition paginate (pc : pagination_config)
  (extract_callback : M (World Page) (list record))
  : M (World Page) (list record) :=
  let max_pages := get_or (pg_max_pages pc) 50%Z in
  paginate_loop (range_len max_pages) pc extract_callback [].

(** The loop of [paginate_by_url] over the page numbers still to visit. *)
Fixpoint paginate_by_url_loop (page_numbers : list Z) (url_template : string)
  (pause_ms : Z) (extract_callback : M (World Page) (list record))
  (results : list record) : M (World Page) (list record) :=
  match page_numbers with
  | [] => ret results
  | page_number :: page_numbers' =>
      page_goto (format_page url_template page_number) ;;;
      extracted <- extract_callback ;;
      page_wait_for_timeout pause_ms ;;;
      paginate_by_url_loop page_numbers' url_template pause_ms
        extract_callback (results ++ extracted)
  end.

(** [paginate_by_url] of [scraper.py]. *)
Definition paginate_by_url (pc : pagination_config)
  (extract_callback : M (World Page) (list record))
  : M (World Page) (list record) :=
  if negb (truthy (pg_url_template pc)) then ret []
  else
    let url_template := get_or (pg_url_template pc) "" in
    let start_page := get_or (pg_start_page pc) 1%Z in
    let max_pages := get_or (pg_max_pages pc) 50%Z in
    let pause_ms := get_or (pg_pause_ms pc) 1500%Z in
    paginate_by_url_loop (range_from start_page max_pages) url_template
      pause_ms extract_callback [].

(* ----------------------------------------------------------------- *)
(** ** The run *)

(** The body of the [for url in start_urls] loop of [main] after the
    navigation: the traversal selected by [mode]. *)
Definition traverse (cfg : config) : M (World Page) (list record) :=
  let mode := get_or (cfg_mode cfg) "infinite_scroll" in
  if String.eqb mode "infinite_scroll" then
    scroll_page (get_or (cfg_scroll cfg) empty_scroll_config) ;;;
    extract_items cfg
  else if String.eqb mode "pagination" then
    let pc := get_or (cfg_pagination cfg) empty_pagination_config in
    if truthy (pg_url_template pc) then paginate_by_url pc (extract_items cfg)
    else paginate pc (extract_items cfg)
  else raise (ValueError ("Unknown mode: " ++ mode)).

(** The [for url in start_urls] loop of [main]. *)
Fixpoint visit_urls (cfg : config) (urls : list string)
  (all_records : list record) : M (World Page) (list record) :=
  match urls with
  | [] => ret all_records
  | url :: urls' =>
      page_goto url ;;;
      records <- traverse cfg ;;
      let all_records := all_records ++ records in
      time_sleep (get_or (cfg_between_urls_pause_s cfg) 1%Z) ;;;
      visit_urls cfg urls' all_records
  end.

(** [main] of [scraper.py], from the loaded configuration to the records
    handed to the spreadsheet writer.  Reading the configuration file,
    launching and closing the browser and writing the output file are
    outside the embedding. *)
Definition main (cfg : config) : M (World Page) (list record) :=
  let columns := get_or (cfg_columns cfg) DEFAULT_COLUMNS in
  all_records <- visit_urls cfg (get_or (cfg_start_urls cfg) []) [] ;;
  ret (ensure_columns all_records columns).

(* ----------------------------------------------------------------- *)
(** ** What a page will show *)

(** The page after one scroll to the bottom and the wait that follows. *)
Definition scrolled (pause_ms : Z) (p : Page) : Page :=
  drv_wait_for_timeout pause_ms (drv_scroll_to_bottom p).

(** The document heights which the first [n] iterations of the scroll loop
    measure when it starts on page [p]. *)
Fixpoint readings (pause_ms : Z) (n : nat) (p : Page) : list Z :=
  match n with
  | O => []
  | S n' =>
      drv_scroll_height (scrolled pause_ms p)
        :: readings pause_ms n' (scrolled pause_ms p)
  end.

(** The page after [n] iterations of the scroll loop. *)
Fixpoint scrolled_times (pause_ms : Z) (n : nat) (p : Page) : Page :=
  match n with
  | O => p
  | S n' => scrolled_times pause_ms n' (scrolled pause_ms p)
  end.

End Scraper.

(* ----------------------------------------------------------------- *)
(** ** What the pagination strategies meet *)

Section Paging.

Context {Page Element : Type} `{PageDriver Page Element}.


(** The calls of one iteration of the click loop that finds the next
    control. *)
Definition click_page_events (item_selector next_selector : string)
  (pause_ms : Z) : list event :=
  [QuerySelectorAll item_selector; QuerySelector next_selector; Click;
   WaitForTimeout pause_ms].

(** The page after the next control was clicked and the pause has passed;
    [None] when no element matches the selector. *)
Definition turn_page (next_selector : string) (pause_ms : Z) (p : Page)
  : option Page :=
  match drv_query_selector next_selector p with
  | None => None
  | Some button => Some (drv_wait_for_timeout pause_ms (drv_click button p))
  end.

(** The [n] pages shown one after the other from [p] on when the next
    control is found on each of them, with the page its last click leads
    to; [None] when the control is missing on one of them. *)
Fixpoint pages_clicked (n : nat) (next_selector : string) (pause_ms : Z)
  (p : Page) : option (list Page * Page) :=
  match n with
  | O => Some ([], p)
  | S n' =>
      match turn_page next_selector pause_ms p with
      | None => None
      | Some p' =>
          match pages_clicked n' next_selector pause_ms p' with
          | None => None
          | Some (pages, final) => Some (p :: pages, final)
          end
      end
  end.

(** The records of the items a page shows. *)
Definition records_on (item_selector : string) (fields : dict field_config)
  (p : Page) : list record :=
  map (fun element => fill_record element fields [])
      (drv_query_selector_all item_selector p).

End Paging.

(* ================================================================= *)
(** * Reading a trace *)

Definition is_goto (e : event) : bool :=
  match e with Goto _ => true | _ => false end.

Definition is_read_height (e : event) : bool :=
  match e with ReadHeight _ => true | _ => false end.

Definition is_query_selector_all (e : event) : bool :=
  match e with QuerySelectorAll _ => true | _ => false end.

(** Number of navigations in a trace. *)
Definition navigations (t : list event) : nat :=
  List.length (filter is_goto t).

(** Number of document-height measurements in a trace. *)
Definition measurements (t : list event) : nat :=
  List.length (filter is_read_height t).

(** Number of Record Extractor invocations in a trace: [extract_items]
    queries the item elements exactly once per invocation, and nothing
    else does. *)
Definition extractions (t : list event) : nat :=
  List.length (filter is_query_selector_all t).

(** The calls of the scroll loop's iterations which measure [heights]. *)
Definition scroll_events (pause_ms : Z) (heights : list Z) : list event :=
  flat_map
    (fun h => [ScrollToBottom; WaitForTimeout pause_ms; ReadHeight h])
    heights.

(** The heights measured, in order. *)
Fixpoint heights_read (t : list event) : list Z :=
  match t with
  | [] => []
  | ReadHeight h :: t' => h :: heights_read t'
  | _ :: t' => heights_read t'
  end.

(** A list whose last [u + 1] entries are [h] and which has no [h] right
    before them. *)
Definition ends_with_run (l : list Z) (h : Z) (u : nat) : Prop :=
  exists front : list Z,
    l = front ++ repeat h (S u) /\
    (front = [] \/ exists (front' : list Z) (x : Z),
                     front = front' ++ [x] /\ x <> h).

(* ================================================================= *)
(** * A scripted page driver *)

(** A page driver given by tables, for running the embedding on concrete
    pages: selectors are looked up in association lists, and the document
    takes the next scripted height during every wait that follows a scroll
    (it keeps its height once the script is used up). *)
Module Scripted.

#[local] Set Warnings "-register-all".

Inductive element : Type :=
| Node (text : string) (attributes : list (string * string))
       (descendants : list (string * element)).

Record page : Type := {
  url : string;
  height : Z;
  coming_heights : list Z;
  items : list (string * list element);
  controls : list (string * element)
}.

Definition lookup {A : Type} (k : string) (l : list (string * A)) : option A :=
  dict_get k l.

Definition node_query (selector : string) (e : element) : option element :=
  match e with Node _ _ ds => lookup selector ds end.

Definition node_text (e : element) : string :=
  match e with Node t _ _ => t end.

Definition node_attribute (name : string) (e : element) : option string :=
  match e with Node _ attrs _ => lookup name attrs end.

Definition navigate (u : string) (p : page) : page :=
  {| url := u; height := height p; coming_heights := coming_heights p;
     items := items p; controls := controls p |}.

Definition settle (p : page) : page :=
  match coming_heights p with
  | [] => p
  | h :: hs =>
      {| url := url p; height := h; coming_heights := hs;
         items := items p; controls := controls p |}
  end.

(** Decimal placeholder substitution is not scripted: the page number is
    left out and the template is the URL. *)
#[global] Instance driver : PageDriver page element := {
  drv_goto := navigate;
  drv_scroll_to_bottom := fun p => p;
  drv_scroll_height := height;
  drv_wait_for_timeout := fun _ p => settle p;
  drv_query_selector := fun selector p => lookup selector (controls p);
  drv_query_selector_all :=
    fun selector p => get_or (lookup selector (items p)) [];
  drv_click := fun _ p => p;
  drv_sleep := fun _ p => p;
  el_query_selector := node_query;
  el_inner_text := node_text;
  el_get_attribute := node_attribute;
  format_page := fun template _ => template
}.

(** A blank page whose document will take the given heights. *)
Definition growing_page (heights : list Z) : page :=
  {| url := ""; height := 0%Z; coming_heights := heights;
     items := []; controls := [] |}.

(** A page showing the given item elements under [selector]. *)
Definition listing_page (selector : string) (elements : list element) : page :=
  {| url := ""; height := 0%Z; coming_heights := [];
     items := [(selector, elements)]; controls := [] |}.

(** The start of a run on page [p]: nothing traced yet. *)
Definition start (p : page) : World page :=
  {| w_page := p; w_trace := [] |}.

(** The item of the specification's scenario: a heading and a mail link. *)
Definition acme : element :=
  Node "" []
    [("h1", Node "  Acme Corp " [] []);
     ("a.mail", Node "write to us" [("href", "mailto:info@acme.com")] [])].

(** An item without any of the descendants a schema asks for. *)
Definition blank : element := Node "" [] [].

End Scripted.

(** Configurations used as concrete inputs. *)
Definition scroll_only (max_scrolls stop_after_unchanged : Z) : scroll_config :=
  {| sc_max_scrolls := Some max_scrolls; sc_pause_ms := None;
     sc_stop_after_unchanged := Some stop_after_unchanged |}.

Definition single_page (max_pages : option Z) : pagination_config :=
  {| pg_next_button_selector := None; pg_url_template := None;
     pg_start_page := None; pg_max_pages := max_pages; pg_pause_ms := None |}.

Definition acme_schema : extraction_config :=
  {| ex_item_selector := Some "div.item";
     ex_fields :=
       Some [("name", FieldSelector "h1");
             ("email", FieldMapping (Some "a.mail") (Some "href"))] |}.

Definition config_with_mode (m : string) (urls : list string) : config :=
  {| cfg_start_urls := Some urls; cfg_mode := Some m; cfg_scroll := None;
     cfg_pagination := None; cfg_extraction := Some acme_schema;
     cfg_columns := Some ["name"; "email"; "phone"];
     cfg_between_urls_pause_s := None |}.

(** The scripted driver with page numbers: the placeholder [{page}] of a
    URL template is replaced by the page number in decimal. *)
Module Numbered.

Definition decimal (n : Z) : string := NilZero.string_of_int (Z.to_int n).

Definition driver : PageDriver Scripted.page Scripted.element := {|
  drv_goto := Scripted.navigate;
  drv_scroll_to_bottom := fun p => p;
  drv_scroll_height := Scripted.height;
  drv_wait_for_timeout := fun _ p => Scripted.settle p;
  drv_query_selector := fun selector p => Scripted.lookup selector (Scripted.controls p);
  drv_query_selector_all :=
    fun selector p => get_or (Scripted.lookup selector (Scripted.items p)) [];
  drv_click := fun _ p => p;
  drv_sleep := fun _ p => p;
  el_query_selector := Scripted.node_query;
  el_inner_text := Scripted.node_text;
  el_get_attribute := Scripted.node_attribute;
  format_page := fun template n => PyStr.replace_first "{page}" (decimal n) template
|}.

End Numbered.

(** Further concrete inputs. *)
Definition config_without_schema : config :=
  {| cfg_start_urls := Some ["https://a.example"]; cfg_mode := Some "pagination";
     cfg_scroll := None; cfg_pagination := None; cfg_extraction := None;
     cfg_columns := None; cfg_between_urls_pause_s := None |}.

Definition click_pages (max_pages : Z) : pagination_config :=
  {| pg_next_button_selector := Some "a.next"; pg_url_template := None;
     pg_start_page := None; pg_max_pages := Some max_pages;
     pg_pause_ms := None |}.


(** An item whose link carries a mail address in an attribute other than
    [href]. *)
Definition mail_card : Scripted.element :=
  Scripted.Node ""
    [] [("a", Scripted.Node "mail" [("data-mail", "mailto:x@y.com")] [])].

(** A listing which always shows a next control. *)
Definition endless_listing : Scripted.page :=
  {| Scripted.url := ""; Scripted.height := 0%Z; Scripted.coming_heights := [];
     Scripted.items := [("div.item", [Scripted.acme])];
     Scripted.controls := [("a.next", Scripted.Node "next" [] [])] |}.

(* ================================================================= *)
(** * Properties of text normalization *)

Section NormalizeFacts.

Import PyStr NormalizeSpec.

Lemma starts_word_split (s : string) :
  starts_word s = true -> split s <> [].
Proof.
  destruct s as [|c rest]; simpl; [discriminate|].
  intros Hc. apply negb_true_iff in Hc. rewrite Hc.
  destruct (starts_word rest); [destruct (split rest)|]; simpl; discriminate.
Qed.

Lemma split_head_word (s : string) :
  match split s with
  | [] => True
  | w :: _ => starts_word w = true
  end.
Proof.
  induction s as [|c rest IH]; simpl; [exact I|].
  destruct (isspace c) eqn:Hc; [exact IH|].
  destruct (starts_word rest); [destruct (split rest)|]; simpl; now rewrite Hc.
Qed.

Lemma joined_head (s : string) : starts_with_space (joined s) = false.
Proof.
  unfold joined, join. pose proof (split_head_word s) as Hw.
  destruct (split s) as [|w ws]; [reflexivity|].
  destruct w as [|c w]; [discriminate|].
  simpl in Hw. apply negb_true_iff in Hw.
  destruct ws; simpl; exact Hw.
Qed.

Lemma joined_empty (s : string) : joined s = "" -> split s = [].
Proof.
  unfold joined, join. pose proof (split_head_word s) as Hw.
  destruct (split s) as [|w ws]; [reflexivity|].
  destruct w as [|c w]; [discriminate|].
  destruct ws; simpl; discriminate.
Qed.

Lemma join_cons_head (c : ascii) (ws : list string) :
  ws <> [] -> join " " (cons_head c ws) = String c (join " " ws).
Proof.
  destruct ws as [|w [|w' ws]]; simpl; congruence.
Qed.

Lemma trim_left_fixed (s : string) :
  starts_with_space s = false -> trim_left s = s.
Proof.
  destruct s as [|c rest]; simpl; [reflexivity|]. now intros ->.
Qed.

(** Collapsing the runs and trimming on the right leaves the joined words,
    behind one space when [s] begins with whitespace. *)
Lemma trim_right_collapse (s : string) :
  trim_right (collapse_runs s) = (gap s ++ joined s)%string.
Proof.
  induction s as [|c rest IH]; [reflexivity|].
  unfold gap, joined in *. simpl.
  destruct (isspace c) eqn:Hc.
  - destruct (starts_with_space rest) eqn:Hr.
    + rewrite IH. reflexivity.
    + simpl. rewrite IH. simpl.
      pose proof (joined_empty rest) as He. unfold joined in He.
      destruct (split rest) as [|w ws] eqn:Hs; [reflexivity|].
      destruct (join " " (w :: ws)) eqn:Hj; [now specialize (He eq_refl)|].
      reflexivity.
  - simpl.
    destruct (starts_word rest) eqn:Hw.
    + pose proof (starts_word_split rest Hw) as Hne.
      rewrite join_cons_head by exact Hne.
      assert (Hr : starts_with_space rest = false).
      { destruct rest; simpl in *; [reflexivity|]. now apply negb_true_iff. }
      rewrite Hr in IH. simpl in IH. rewrite IH.
      pose proof (joined_empty rest) as He. unfold joined in He.
      destruct (join " " (split rest)) eqn:Hj; [now specialize (He eq_refl)|].
      reflexivity.
    + rewrite IH.
      destruct rest as [|c' rest'].
      * simpl. now rewrite Hc.
      * simpl in Hw. apply negb_false_iff in Hw.
        change (starts_with_space (String c' rest')) with (isspace c').
        rewrite Hw.
        destruct (split (String c' rest')) as [|w ws] eqn:Hs.
        -- simpl. now rewrite Hc.
        -- reflexivity.
Qed.

(** The refinement: [normalize_text] computes what the specification's
    wording describes. *)
Lemma normalize_text_refines (s : string) :
  normalize_text (Some s) = normalized s.
Proof.
  unfold normalize_text, normalized, trim.
  rewrite trim_right_collapse.
  fold (joined s).
  assert (Ht : trim_left (gap s ++ joined s)%string = joined s).
  { pose proof (joined_head s) as Hh.
    unfold gap. destruct (starts_with_space s); [destruct (split s)|];
      simpl; now apply trim_left_fixed. }
  rewrite Ht. destruct (joined s); reflexivity.
Qed.

End NormalizeFacts.

(** C5. Text normalization: a null input gives null; for every string the
    result is the string with every run of whitespace (newlines and tabs
    included) collapsed to one ASCII space and with leading and trailing
    whitespace trimmed, and null instead of the empty string; the sample
    with mixed whitespace normalizes to [a b]. *)
Theorem normalize_text_collapses_whitespace :
  normalize_text None = None /\
  (forall s : string, normalize_text (Some s) = NormalizeSpec.normalized s) /\
  (forall s : string, normalize_text (Some s) <> Some "") /\
  normalize_text (Some mixed_whitespace_sample) = Some "a b".
Proof.
  split; [reflexivity|]. split; [exact normalize_text_refines|].
  split; [|reflexivity].
  intros s. unfold normalize_text.
  destruct (PyStr.join " " (PyStr.split s)); simpl; congruence.
Qed.

(* ================================================================= *)
(** * Properties of dictionaries *)

Section DictFacts.

Context {V : Type}.

Implicit Types (d : dict V) (k : string) (v : V).

Lemma mem_In (x : string) (l : list string) : mem x l = true <-> In x l.
Proof.
  unfold mem. rewrite existsb_exists. split.
  - intros (y & Hy & He). apply String.eqb_eq in He. now subst.
  - intros Hx. exists x. split; [exact Hx | apply String.eqb_refl].
Qed.

Lemma mem_not_In (x : string) (l : list string) : mem x l = false <-> ~ In x l.
Proof.
  rewrite <- mem_In. destruct (mem x l); split; congruence.
Qed.

Lemma dict_get_set_same k v d : dict_get k (dict_set k v d) = Some v.
Proof.
  induction d as [|[k' v'] d IH]; simpl.
  - now rewrite String.eqb_refl.
  - destruct (String.eqb k k') eqn:E; simpl.
    + now rewrite String.eqb_refl.
    + now rewrite E.
Qed.

Lemma dict_get_set_other k k' v d :
  k' <> k -> dict_get k' (dict_set k v d) = dict_get k' d.
Proof.
  intros Hne. apply String.eqb_neq in Hne.
  induction d as [|[k0 v0] d IH]; simpl.
  - now rewrite Hne.
  - destruct (String.eqb k k0) eqn:E; simpl.
    + apply String.eqb_eq in E. subst k0. now rewrite Hne.
    + now rewrite IH.
Qed.

Lemma keys_dict_set k v d : keys (dict_set k v d) = add_key (keys d) k.
Proof.
  unfold add_key, mem.
  induction d as [|[k' v'] d IH]; simpl; [reflexivity|].
  destruct (String.eqb k k') eqn:E; simpl.
  - apply String.eqb_eq in E. now subst.
  - rewrite IH. now destruct (existsb (String.eqb k) (keys d)).
Qed.

Lemma dict_mem_keys k d : dict_mem k d = mem k (keys d).
Proof.
  unfold dict_mem, mem.
  induction d as [|[k' v'] d IH]; simpl; [reflexivity|].
  now destruct (String.eqb k k').
Qed.

End DictFacts.

(** The distinct elements of a list. *)
Section DistinctFacts.

Lemma add_keys_In (l seen : list string) (x : string) :
  In x (fold_left add_key l seen) <-> In x seen \/ In x l.
Proof.
  revert seen. induction l as [|y l IH]; intros seen; simpl.
  - tauto.
  - rewrite IH. unfold add_key. destruct (mem y seen) eqn:E.
    + apply mem_In in E. split; [tauto|]. intros [?|[<-|?]]; tauto.
    + rewrite in_app_iff. simpl. tauto.
Qed.

Lemma add_keys_NoDup (l seen : list string) :
  NoDup seen -> NoDup (fold_left add_key l seen).
Proof.
  revert seen. induction l as [|y l IH]; intros seen Hs; simpl; [exact Hs|].
  apply IH. unfold add_key. destruct (mem y seen) eqn:E; [exact Hs|].
  apply mem_not_In in E.
  apply NoDup_rev in Hs. rewrite <- (rev_involutive (seen ++ [y])).
  apply NoDup_rev. rewrite rev_app_distr. simpl. constructor; [|exact Hs].
  now rewrite <- in_rev.
Qed.

Lemma add_keys_fresh (l seen : list string) :
  NoDup (seen ++ l) -> fold_left add_key l seen = seen ++ l.
Proof.
  revert seen. induction l as [|y l IH]; intros seen Hs; simpl.
  - now rewrite app_nil_r.
  - assert (E : mem y seen = false).
    { apply mem_not_In. intros Hy. apply NoDup_remove_2 in Hs.
      apply Hs. apply in_or_app. now left. }
    unfold add_key at 2. rewrite E.
    rewrite IH; rewrite <- app_assoc; [reflexivity | exact Hs].
Qed.

Lemma distinct_In (l : list string) (x : string) :
  In x (distinct l) <-> In x l.
Proof. unfold distinct. rewrite add_keys_In. simpl. tauto. Qed.

Lemma distinct_NoDup (l : list string) : NoDup (distinct l).
Proof. apply add_keys_NoDup. constructor. Qed.

Lemma distinct_fixed (l : list string) : NoDup l -> distinct l = l.
Proof. intros Hl. unfold distinct. now rewrite add_keys_fresh. Qed.

End DistinctFacts.

(* ================================================================= *)
(** * Properties of the schema projector *)

Section ProjectFacts.

Implicit Types (r out : record) (columns : list string).

Lemma keys_project_onto r columns out :
  keys (project_onto r columns out) = fold_left add_key columns (keys out).
Proof.
  revert out. induction columns as [|col columns IH]; intros out; simpl.
  - reflexivity.
  - now rewrite IH, keys_dict_set.
Qed.

Lemma dict_get_project_onto r columns out (col : string) :
  dict_get col (project_onto r columns out) =
  if mem col columns then Some (record_get col r) else dict_get col out.
Proof.
  revert out. induction columns as [|c columns IH]; intros out; simpl.
  - reflexivity.
  - rewrite IH. destruct (String.eqb col c) eqn:E; simpl.
    + apply String.eqb_eq in E. subst c.
      rewrite dict_get_set_same. now destruct (mem col columns).
    + apply String.eqb_neq in E. now rewrite dict_get_set_other.
Qed.

Lemma keys_project r columns : keys (project r columns) = distinct columns.
Proof. apply keys_project_onto. Qed.

Lemma dict_get_project r columns (col : string) :
  dict_get col (project r columns) =
  if mem col columns then Some (record_get col r) else None.
Proof. apply dict_get_project_onto. Qed.

Lemma record_get_project r columns (col : string) :
  In col columns -> record_get col (project r columns) = record_get col r.
Proof.
  intros Hc. unfold record_get at 1. rewrite dict_get_project.
  apply mem_In in Hc. now rewrite Hc.
Qed.

(** The projection reads its source only through [record.get] at the
    columns. *)
Lemma project_onto_ext r1 r2 columns out :
  (forall col, In col columns -> record_get col r1 = record_get col r2) ->
  project_onto r1 columns out = project_onto r2 columns out.
Proof.
  revert out. induction columns as [|c columns IH]; intros out Hg; simpl.
  - reflexivity.
  - rewrite (Hg c) by now left. apply IH. intros col Hc. apply Hg. now right.
Qed.

Lemma project_idempotent r columns :
  project (project r columns) columns = project r columns.
Proof.
  apply project_onto_ext. intros col Hc. now apply record_get_project.
Qed.

(** The loop of [ensure_columns] maps [project] over the records. *)
Lemma ensure_columns_from_map (records normalized : list record) columns :
  ensure_columns_from records columns normalized =
  normalized ++ map (fun r => project r columns) records.
Proof.
  revert normalized. induction records as [|r records IH]; intros acc; simpl.
  - now rewrite app_nil_r.
  - rewrite IH, <- app_assoc. reflexivity.
Qed.

Lemma ensure_columns_map (records : list record) columns :
  ensure_columns records columns = map (fun r => project r columns) records.
Proof. apply ensure_columns_from_map. Qed.

End ProjectFacts.

(** C8. Schema projection: every projected record has exactly the keys of
    the column list, in the order of the list (a column listed twice stands
    once, where it is listed first); a listed column takes the value
    [record.get] gives for it in the source record, which is null when the
    source record lacks the column; a key that is not a listed column is
    absent from the projected record. *)
Theorem ensure_columns_projects (records : list record) (columns : list string) :
  Forall2
    (fun r r' =>
       keys r' = distinct columns /\
       (NoDup columns -> keys r' = columns) /\
       (forall col, In col (keys r') <-> In col columns) /\
       (forall col,
           dict_get col r' =
           if mem col columns then Some (record_get col r) else None) /\
       (forall col v, In col columns -> dict_get col r = Some v ->
                      dict_get col r' = Some v) /\
       (forall col, In col columns -> dict_get col r = None ->
                    dict_get col r' = Some None) /\
       (forall col, ~ In col columns -> dict_get col r' = None))
    records (ensure_columns records columns).
Proof.
  rewrite ensure_columns_map.
  induction records as [|r records IH]; simpl; constructor; [|exact IH].
  assert (Hget : forall col, dict_get col (project r columns) =
             if mem col columns then Some (record_get col r) else None)
    by (intros; apply dict_get_project).
  repeat split.
  - apply keys_project.
  - intros Hn. rewrite keys_project. now apply distinct_fixed.
  - rewrite keys_project. apply distinct_In.
  - rewrite keys_project. apply distinct_In.
  - exact Hget.
  - intros col v Hc Hv. rewrite Hget. apply mem_In in Hc. rewrite Hc.
    unfold record_get. now rewrite Hv.
  - intros col Hc Hv. rewrite Hget. apply mem_In in Hc. rewrite Hc.
    unfold record_get. now rewrite Hv.
  - intros col Hc. rewrite Hget. apply mem_not_In in Hc. now rewrite Hc.
Qed.

(** C9. Idempotence of the schema projector: projecting the output of
    [ensure_columns] again onto the same columns changes nothing. *)
Theorem ensure_columns_idempotent (records : list record) (columns : list string) :
  ensure_columns (ensure_columns records columns) columns =
  ensure_columns records columns.
Proof.
  rewrite !ensure_columns_map, map_map.
  apply map_ext. intros r. apply project_idempotent.
Qed.

(** C10. The schema projector keeps the number and the order of the
    records: the output is as long as the input, and its i-th record is the
    projection of the i-th input record. *)
Theorem ensure_columns_pointwise (records : list record) (columns : list string) :
  List.length (ensure_columns records columns) = List.length records /\
  forall i : nat,
    nth_error (ensure_columns records columns) i =
    option_map (fun r => project r columns) (nth_error records i).
Proof.
  rewrite ensure_columns_map. split.
  - apply length_map.
  - intros i. apply nth_error_map.
Qed.

(* ================================================================= *)
(** * Properties of field and record extraction *)

Section StringFacts.

Import PyStr.

Lemma startswith_append (p s : string) : startswith p (p ++ s)%string = true.
Proof.
  unfold startswith. induction p as [|c p IH]; simpl.
  - now destruct s.
  - destruct (ascii_dec c c); [exact IH | congruence].
Qed.

Lemma drop_append (p s : string) : drop (String.length p) (p ++ s)%string = s.
Proof. induction p as [|c p IH]; simpl; [reflexivity | exact IH]. Qed.

(** Replacing the first occurrence of a prefix removes the prefix, and only
    it. *)
Lemma replace_first_prefix (p s : string) :
  replace_first p "" (p ++ s)%string = s.
Proof.
  destruct p as [|c p]; [now destruct s|].
  change (replace_first (String c p) "" (String c p ++ s)%string)
    with (if startswith (String c p) (String c p ++ s)%string
          then ("" ++ drop (String.length (String c p)) (String c p ++ s))%string
          else String c (replace_first (String c p) "" (p ++ s)%string)).
  rewrite startswith_append, drop_append. reflexivity.
Qed.

End StringFacts.

Section ExtractFacts.

Context {Page Element : Type} `{PageDriver Page Element}.

Implicit Types (element target : Element) (fields : dict field_config).

Lemma fill_record_keys element fields (rec : record) :
  keys (fill_record element fields rec) =
  fold_left add_key (keys fields) (keys rec).
Proof.
  revert rec. induction fields as [|[name fc] fields IH]; intros rec; simpl.
  - reflexivity.
  - now rewrite IH, keys_dict_set.
Qed.

Lemma fill_record_get_other element fields (rec : record) (name : string) :
  ~ In name (keys fields) ->
  dict_get name (fill_record element fields rec) = dict_get name rec.
Proof.
  revert rec. induction fields as [|[n fc] fields IH]; intros rec Hn; simpl.
  - reflexivity.
  - simpl in Hn. rewrite IH by tauto.
    apply dict_get_set_other. intros ->. tauto.
Qed.

(** Every field name of the schema is a key of the record, bound to the
    value extracted for one of the field's specifications. *)
Lemma fill_record_get element fields (rec : record) (name : string) :
  In name (keys fields) ->
  exists fc, In (name, fc) fields /\
             dict_get name (fill_record element fields rec) =
             Some (extract_value element fc).
Proof.
  revert rec. induction fields as [|[n fc] fields IH]; intros rec Hn; simpl.
  - destruct Hn.
  - destruct (in_dec string_dec name (keys fields)) as [Hin|Hout].
    + destruct (IH (dict_set n (extract_value element fc) rec) Hin)
        as (fc' & Hfc & Hget).
      exists fc'. split; [now right | exact Hget].
    + destruct Hn as [Heq|Hin]; [|contradiction]. simpl in Heq. subst n.
      exists fc. split; [now left|].
      rewrite fill_record_get_other by exact Hout.
      apply dict_get_set_same.
Qed.

(** The loop of [extract_items] maps the record construction over the
    elements. *)
Lemma collect_items_map (elements : list Element) fields (items : list record) :
  collect_items elements fields items =
  items ++ map (fun element => fill_record element fields []) elements.
Proof.
  revert items. induction elements as [|e elements IH]; intros items; simpl.
  - now rewrite app_nil_r.
  - rewrite IH, <- app_assoc. reflexivity.
Qed.

(** [extract_items] on a configuration with an extraction schema: one query
    of the item elements, and the records collected from them. *)
Lemma extract_items_run (cfg : config) (ex : extraction_config)
  (selector : string) fields (w : World Page) :
  cfg_extraction cfg = Some ex ->
  ex_item_selector ex = Some selector ->
  ex_fields ex = Some fields ->
  extract_items cfg w =
  (Return (map (fun element => fill_record element fields [])
               (drv_query_selector_all selector (w_page w))),
   {| w_page := w_page w;
      w_trace := w_trace w ++ [QuerySelectorAll selector] |}).
Proof.
  intros He Hs Hf. unfold extract_items, bind, subscript.
  rewrite He. cbn. rewrite Hs. cbn. rewrite Hf. cbn.
  now rewrite collect_items_map.
Qed.

End ExtractFacts.

Section ExtractClaims.

Context {Page Element : Type} `{PageDriver Page Element}.

(** C4. Reading the attribute [href] of the selected descendant: a raw
    value that starts with [mailto:] loses exactly this leading prefix (a
    later [mailto:] in the value stays, and the comparison is exact, so a
    prefix in other letter case is kept) and is then normalized; every
    other raw value is normalized as it is. *)
Theorem extract_value_href_mailto (element target : Element)
  (selector raw : string) :
  PyStr.nonempty selector = true ->
  el_query_selector selector element = Some target ->
  el_get_attribute "href" target = Some raw ->
  (forall rest : string,
      raw = ("mailto:" ++ rest)%string ->
      extract_value element (FieldMapping (Some selector) (Some "href")) =
      normalize_text (Some rest)) /\
  (PyStr.startswith "mailto:" raw = false ->
   extract_value element (FieldMapping (Some selector) (Some "href")) =
   normalize_text (Some raw)).
Proof.
  intros Hsel Ht Ha. unfold extract_value.
  rewrite Hsel, Ht. cbn [negb PyStr.nonempty]. rewrite Ha. split.
  - intros rest ->.
    rewrite (startswith_append "mailto:" rest).
    rewrite (replace_first_prefix "mailto:" rest). reflexivity.
  - intros ->. now rewrite andb_false_r.
Qed.

(** C6. A field given as a mapping whose selector is missing or empty
    yields null on every element, whatever the element contains and
    whatever attribute is asked for; the extractor is a total function, so
    no error is raised. *)
Theorem extract_value_without_selector (element : Element)
  (attr : option string) :
  extract_value element (FieldMapping None attr) = None /\
  extract_value element (FieldMapping (Some "") attr) = None.
Proof. split; reflexivity. Qed.

(** C7. Record extraction with an extraction schema: the item elements are
    queried once, and the result holds one record per element the query
    returned, in the order of the elements; the i-th record is the one
    filled from the i-th element; every record has exactly the field names
    of the schema as its keys, each bound to the value extracted for that
    field, null values included. *)
Theorem extract_items_one_record_per_item (cfg : config)
  (ex : extraction_config) (selector : string) (fields : dict field_config)
  (w : World Page) :
  cfg_extraction cfg = Some ex ->
  ex_item_selector ex = Some selector ->
  ex_fields ex = Some fields ->
  exists records : list record,
    extract_items cfg w =
      (Return records,
       {| w_page := w_page w;
          w_trace := w_trace w ++ [QuerySelectorAll selector] |}) /\
    List.length records =
      List.length (drv_query_selector_all selector (w_page w)) /\
    (forall i : nat,
        nth_error records i =
        option_map (fun element => fill_record element fields [])
                   (nth_error (drv_query_selector_all selector (w_page w)) i)) /\
    Forall2
      (fun element r =>
         keys r = distinct (keys fields) /\
         (forall name, In name (keys fields) -> dict_mem name r = true) /\
         (forall name, In name (keys fields) ->
            exists fc, In (name, fc) fields /\
                       dict_get name r = Some (extract_value element fc)))
      (drv_query_selector_all selector (w_page w)) records.
Proof.
  intros He Hs Hf. eexists. split; [exact (extract_items_run cfg ex selector fields w He Hs Hf)|].
  split; [apply length_map|]. split; [intros i; apply nth_error_map|].
  induction (drv_query_selector_all selector (w_page w)) as [|e es IH];
    simpl; constructor; [|exact IH].
  split; [apply fill_record_keys|].
  split.
  - intros name Hn. rewrite dict_mem_keys, fill_record_keys.
    apply mem_In. apply add_keys_In. now right.
  - intros name Hn. now apply fill_record_get.
Qed.

End ExtractClaims.

(* ================================================================= *)
(** * Properties of the traversal strategies and of the run *)

Section TraceFacts.

Lemma navigations_app (t u : list event) :
  navigations (t ++ u) = navigations t + navigations u.
Proof. unfold navigations. now rewrite filter_app, length_app. Qed.

Lemma measurements_app (t u : list event) :
  measurements (t ++ u) = measurements t + measurements u.
Proof. unfold measurements. now rewrite filter_app, length_app. Qed.

Lemma extractions_app (t u : list event) :
  extractions (t ++ u) = extractions t + extractions u.
Proof. unfold extractions. now rewrite filter_app, length_app. Qed.

Lemma measurements_scroll_events (pause_ms : Z) (heights : list Z) :
  measurements (scroll_events pause_ms heights) = List.length heights.
Proof.
  induction heights as [|h heights IH]; [reflexivity|].
  change (scroll_events pause_ms (h :: heights))
    with ([ScrollToBottom; WaitForTimeout pause_ms; ReadHeight h]
            ++ scroll_events pause_ms heights).
  rewrite measurements_app, IH. reflexivity.
Qed.

Lemma heights_read_scroll_events (pause_ms : Z) (heights : list Z) :
  heights_read (scroll_events pause_ms heights) = heights.
Proof.
  induction heights as [|h heights IH]; [reflexivity|].
  simpl. now rewrite IH.
Qed.

End TraceFacts.

Section TraversalFacts.

Context {Page Element : Type} `{PageDriver Page Element}.

(** One iteration of the scroll loop. *)
Lemma scroll_loop_step (n : nat) (pause_ms stop unchanged previous : Z)
  (w : World Page) :
  scroll_loop (S n) pause_ms stop unchanged previous w =
  let p := scrolled pause_ms (w_page w) in
  let h := drv_scroll_height p in
  let u := if (h =? previous)%Z then (unchanged + 1)%Z else 0%Z in
  let w' := {| w_page := p;
               w_trace := w_trace w ++ scroll_events pause_ms [h] |} in
  if (u >=? stop)%Z then (Return tt, w')
  else scroll_loop n pause_ms stop u h w'.
Proof.
  cbn [scroll_loop]. unfold bind, page_scroll_to_bottom, page_scroll_height,
    page_wait_for_timeout, call, query, scrolled, ret. cbn.
  rewrite <- !app_assoc. cbn.
  destruct (_ >=? stop)%Z; reflexivity.
Qed.

(** The scroll loop never raises and only adds to the trace. *)
Lemma scroll_loop_extends (n : nat) (pause_ms stop unchanged previous : Z)
  (w : World Page) :
  exists more : list event,
    fst (scroll_loop n pause_ms stop unchanged previous w) = Return tt /\
    w_trace (snd (scroll_loop n pause_ms stop unchanged previous w)) =
    w_trace w ++ more.
Proof.
  revert unchanged previous w.
  induction n as [|n IH]; intros unchanged previous w.
  - exists []. cbn. now rewrite app_nil_r.
  - rewrite scroll_loop_step. cbv zeta.
    destruct (_ >=? stop)%Z.
    + eexists. cbn. split; reflexivity.
    + match goal with
      | |- context [scroll_loop n pause_ms stop ?u ?h ?w'] =>
          destruct (IH u h w') as (more & Hr & Ht)
      end.
      eexists. split; [exact Hr|]. rewrite Ht. cbn [w_trace].
      rewrite <- app_assoc. reflexivity.
Qed.

End TraversalFacts.

Section TraversalClaims.

Context {Page Element : Type} `{PageDriver Page Element}.

(** C1 (amended). Infinite-scroll traversal on a page whose first four
    height readings are 100, 200, 200, 200, with [stop_after_unchanged] 3
    and [max_scrolls] larger than 4: the loop does not halt after these four
    measurements (the first reading differs from the baseline 0, so only two
    readings were equal to their predecessor); it takes a fifth one, and
    when that reads 200 again the loop halts there, after exactly five
    measurements. *)
Theorem scroll_page_fifth_measurement (sc : scroll_config) (w : World Page)
  (h5 : Z) :
  get_or (sc_stop_after_unchanged sc) 3%Z = 3%Z ->
  (4 < get_or (sc_max_scrolls sc) 50)%Z ->
  readings (get_or (sc_pause_ms sc) 1200%Z) 5 (w_page w) =
    [100; 200; 200; 200; h5]%Z ->
  (exists more : list event,
      fst (scroll_page sc w) = Return tt /\
      w_trace (snd (scroll_page sc w)) =
      w_trace w
        ++ scroll_events (get_or (sc_pause_ms sc) 1200%Z)
             [100; 200; 200; 200; h5]%Z
        ++ more) /\
  (h5 = 200%Z ->
   scroll_page sc w =
     (Return tt,
      {| w_page := scrolled_times (get_or (sc_pause_ms sc) 1200%Z) 5 (w_page w);
         w_trace :=
           w_trace w
             ++ scroll_events (get_or (sc_pause_ms sc) 1200%Z)
                  [100; 200; 200; 200; 200]%Z |}) /\
   measurements
     (scroll_events (get_or (sc_pause_ms sc) 1200%Z)
        [100; 200; 200; 200; 200]%Z) = 5).
Proof.
  intros Hstop Hmax Hread. unfold scroll_page. rewrite Hstop.
  set (pause := get_or (sc_pause_ms sc) 1200%Z) in *.
  assert (Hn : exists n, range_len (get_or (sc_max_scrolls sc) 50%Z)
                         = S (S (S (S (S n))))).
  { unfold range_len. exists (Z.to_nat (get_or (sc_max_scrolls sc) 50%Z) - 5).
    lia. }
  destruct Hn as [n ->].
  cbn [readings] in Hread.
  injection Hread as H1 H2 H3 H4 H5.
  assert (Hfour :
    scroll_loop (S (S (S (S (S n))))) pause 3 0 0 w =
    scroll_loop (S n) pause 3 2 200
      {| w_page := scrolled_times pause 4 (w_page w);
         w_trace := w_trace w ++ scroll_events pause [100; 200; 200; 200]%Z |}).
  { rewrite scroll_loop_step. cbv zeta. rewrite H1. cbn [Z.eqb Z.geb Z.compare].
    rewrite scroll_loop_step. cbv zeta. cbn [w_page w_trace]. rewrite H2.
    cbn [Z.eqb Pos.eqb Z.geb Z.compare].
    rewrite scroll_loop_step. cbv zeta. cbn [w_page w_trace]. rewrite H3.
    cbn [Z.eqb Pos.eqb Z.add Z.geb Z.compare Pos.compare Pos.compare_cont].
    rewrite scroll_loop_step. cbv zeta. cbn [w_page w_trace]. rewrite H4.
    cbn [Z.eqb Pos.eqb Z.add Pos.add Z.geb Z.compare Pos.compare
         Pos.compare_cont].
    rewrite <- !app_assoc. reflexivity. }
  rewrite Hfour. rewrite scroll_loop_step. cbv zeta. cbn [w_page w_trace].
  change (scrolled pause (scrolled_times pause 4 (w_page w)))
    with (scrolled_times pause 5 (w_page w)).
  assert (H5' : drv_scroll_height (scrolled_times pause 5 (w_page w)) = h5)
    by exact H5.
  rewrite H5'. rewrite <- !app_assoc.
  change (scroll_events pause [100; 200; 200; 200]%Z ++ scroll_events pause [h5])
    with (scroll_events pause [100; 200; 200; 200; h5]%Z).
  split.
  - destruct (_ >=? 3)%Z.
    + exists []. cbn [fst snd w_trace]. now rewrite app_nil_r.
    + match goal with
      | |- context [scroll_loop n pause 3%Z ?u ?h ?w'] =>
          destruct (scroll_loop_extends n pause 3%Z u h w') as (more & Hr & Ht)
      end.
      exists more. split; [exact Hr|]. rewrite Ht. cbn [w_trace].
      now rewrite <- app_assoc.
  - intros ->. split; [reflexivity|].
    apply measurements_scroll_events.
Qed.

(** C3 (amended). Click-based pagination without a next-button selector
    (the key is missing or its value is empty) and with [max_pages] at
    least 1: the run of [paginate] is the run of one call of the extraction
    callback, with its result and its effects and nothing besides; with the
    Record Extractor as the callback, the item elements are queried exactly
    once and the records of that one extraction are returned. *)
Theorem paginate_without_next_selector (pc : pagination_config)
  (w : World Page) :
  truthy (pg_next_button_selector pc) = false ->
  (0 < get_or (pg_max_pages pc) 50)%Z ->
  (forall extract_callback : M (World Page) (list record),
      paginate pc extract_callback w = extract_callback w) /\
  (forall (cfg : config) (ex : extraction_config) (selector : string)
          (fields : dict field_config),
      cfg_extraction cfg = Some ex ->
      ex_item_selector ex = Some selector ->
      ex_fields ex = Some fields ->
      paginate pc (extract_items cfg) w =
        (Return (map (fun element => fill_record element fields [])
                     (drv_query_selector_all selector (w_page w))),
         {| w_page := w_page w;
            w_trace := w_trace w ++ [QuerySelectorAll selector] |}) /\
      extractions (w_trace (snd (paginate pc (extract_items cfg) w))) =
        extractions (w_trace w) + 1).
Proof.
  intros Hsel Hmax.
  assert (Hone : forall cb : M (World Page) (list record),
             paginate pc cb w = cb w).
  { intros cb. unfold paginate.
    assert (Hn : exists n, range_len (get_or (pg_max_pages pc) 50%Z) = S n).
    { unfold range_len. exists (Z.to_nat (get_or (pg_max_pages pc) 50%Z) - 1).
      lia. }
    destruct Hn as [n ->]. cbn [paginate_loop]. rewrite Hsel. unfold bind.
    destruct (cb w) as [[records|e] w']; reflexivity. }
  split; [exact Hone|].
  intros cfg ex selector fields He Hs Hf.
  rewrite Hone, (extract_items_run cfg ex selector fields w He Hs Hf).
  split; [reflexivity|]. cbn [snd w_trace].
  now rewrite extractions_app.
Qed.

(** C2 (amended). A configuration whose mode is neither [infinite_scroll]
    nor [pagination] and whose [start_urls] is not empty: the run fails
    with the error [Unknown mode], after exactly one navigation, to the
    first start URL, and before any scroll, query, extraction or further
    navigation. *)
Theorem main_unknown_mode (cfg : config) (m url : string)
  (urls : list string) (w : World Page) :
  cfg_mode cfg = Some m ->
  m <> "infinite_scroll" ->
  m <> "pagination" ->
  cfg_start_urls cfg = Some (url :: urls) ->
  main cfg w =
    (Raise (ValueError ("Unknown mode: " ++ m)),
     {| w_page := drv_goto url (w_page w);
        w_trace := w_trace w ++ [Goto url] |}) /\
  navigations (w_trace (snd (main cfg w))) = navigations (w_trace w) + 1.
Proof.
  intros Hm Hs Hp Hu.
  apply String.eqb_neq in Hs, Hp.
  assert (Hrun : main cfg w =
    (Raise (ValueError ("Unknown mode: " ++ m)),
     {| w_page := drv_goto url (w_page w);
        w_trace := w_trace w ++ [Goto url] |})).
  { unfold main. rewrite Hu. cbn [get_or visit_urls].
    unfold bind at 1 2. unfold page_goto, call.
    unfold traverse. rewrite Hm. cbn [get_or]. rewrite Hs, Hp.
    unfold bind, raise. reflexivity. }
  split; [exact Hrun|].
  rewrite Hrun. cbn [snd w_trace]. now rewrite navigations_app.
Qed.

End TraversalClaims.

(* ================================================================= *)
(** * Concrete runs on the scripted driver *)

(** The page of the specification's scenario followed by an item that has
    neither a heading nor a mail link. *)
Definition two_items : World Scripted.page :=
  Scripted.start (Scripted.listing_page "div.item" [Scripted.acme; Scripted.blank]).

(** A page whose document grows from 100 to 200 and then stays. *)
Definition grown_once : World Scripted.page :=
  Scripted.start (Scripted.growing_page [100; 200; 200; 200]%Z).

(** The mail link of the scenario's item. *)
Definition acme_mail_link : Scripted.element :=
  Scripted.Node "write to us" [("href", "mailto:info@acme.com")] [].

(** C1, the claim as stated fails: the readings are 100, 200, 200, 200 and
    [max_scrolls] is 50, yet the loop measures five times, not four. *)
Lemma scroll_page_four_measurements_refuted :
  readings 1200%Z 4 (w_page grown_once) = [100; 200; 200; 200]%Z /\
  (4 < 50)%Z /\
  measurements (w_trace (snd (scroll_page (scroll_only 50 3) grown_once))) = 5 /\
  measurements (w_trace (snd (scroll_page (scroll_only 50 3) grown_once))) <> 4.
Proof.
  split; [reflexivity|]. split; [lia|]. split; [reflexivity|].
  vm_compute. discriminate.
Qed.

(** C1, the amended statement at this page. *)
Lemma scroll_page_fifth_measurement_witness :
  get_or (sc_stop_after_unchanged (scroll_only 50 3)) 3%Z = 3%Z /\
  (4 < get_or (sc_max_scrolls (scroll_only 50 3)) 50)%Z /\
  readings 1200%Z 5 (w_page grown_once) = [100; 200; 200; 200; 200]%Z /\
  heights_read (w_trace (snd (scroll_page (scroll_only 50 3) grown_once))) =
    [100; 200; 200; 200; 200]%Z.
Proof.
  split; [reflexivity|]. split; [reflexivity|]. split; [reflexivity|].
  assert (Hread : readings (get_or (sc_pause_ms (scroll_only 50 3)) 1200%Z) 5
                    (w_page grown_once) = [100; 200; 200; 200; 200]%Z)
    by reflexivity.
  destruct (scroll_page_fifth_measurement (scroll_only 50 3) grown_once 200%Z
              eq_refl eq_refl Hread) as [_ Hhalt].
  destruct (Hhalt eq_refl) as [Hrun _].
  rewrite Hrun. reflexivity.
Defined.

(** C2, the claim as stated fails: with the unknown mode [bogus] the run
    raises only after it has navigated to the first start URL. *)
Lemma main_unknown_mode_navigates_first :
  fst (main (config_with_mode "bogus" ["https://a.example"; "https://b.example"])
         two_items) = Raise (ValueError "Unknown mode: bogus") /\
  w_trace (snd (main (config_with_mode "bogus"
                        ["https://a.example"; "https://b.example"]) two_items)) =
    [Goto "https://a.example"] /\
  navigations
    (w_trace (snd (main (config_with_mode "bogus"
                           ["https://a.example"; "https://b.example"]) two_items)))
    <> 0.
Proof.
  split; [reflexivity|]. split; [reflexivity|]. vm_compute. discriminate.
Qed.

(** C2, the amended statement at this configuration. *)
Lemma main_unknown_mode_witness :
  cfg_mode (config_with_mode "bogus" ["https://a.example"; "https://b.example"])
    = Some "bogus" /\
  "bogus" <> "infinite_scroll" /\
  "bogus" <> "pagination" /\
  navigations
    (w_trace (snd (main (config_with_mode "bogus"
                           ["https://a.example"; "https://b.example"]) two_items)))
    = 1.
Proof.
  split; [reflexivity|]. split; [discriminate|]. split; [discriminate|].
  refine (proj2 (main_unknown_mode
                   (config_with_mode "bogus"
                      ["https://a.example"; "https://b.example"])
                   "bogus" "https://a.example" ["https://b.example"] two_items
                   eq_refl _ _ eq_refl)); discriminate.
Defined.

(** C3, the claim as stated fails: with [max_pages] 0 and no next-button
    selector the Record Extractor is not invoked at all. *)
Lemma paginate_zero_pages_never_extracts :
  truthy (pg_next_button_selector (single_page (Some 0%Z))) = false /\
  paginate (single_page (Some 0%Z))
    (extract_items (config_with_mode "pagination" [])) two_items =
    (Return [], two_items) /\
  extractions
    (w_trace (snd (paginate (single_page (Some 0%Z))
                     (extract_items (config_with_mode "pagination" []))
                     two_items))) <> 1.
Proof.
  split; [reflexivity|]. split; [reflexivity|]. vm_compute. discriminate.
Qed.

(** C3, the amended statement with the default [max_pages]. *)
Lemma paginate_without_next_selector_witness :
  truthy (pg_next_button_selector (single_page None)) = false /\
  (0 < get_or (pg_max_pages (single_page None)) 50)%Z /\
  paginate (single_page None)
    (extract_items (config_with_mode "pagination" [])) two_items =
  extract_items (config_with_mode "pagination" []) two_items.
Proof.
  split; [reflexivity|]. split; [reflexivity|].
  exact (proj1 (paginate_without_next_selector (single_page None) two_items
                  eq_refl eq_refl)
           (extract_items (config_with_mode "pagination" []))).
Defined.

(** C4 at the scenario's mail link. *)
Lemma extract_value_href_mailto_witness :
  PyStr.nonempty "a.mail" = true /\
  el_query_selector "a.mail" Scripted.acme = Some acme_mail_link /\
  el_get_attribute "href" acme_mail_link = Some "mailto:info@acme.com" /\
  extract_value Scripted.acme (FieldMapping (Some "a.mail") (Some "href")) =
    normalize_text (Some "info@acme.com").
Proof.
  split; [reflexivity|]. split; [reflexivity|]. split; [reflexivity|].
  exact (proj1 (extract_value_href_mailto Scripted.acme acme_mail_link
                  "a.mail" "mailto:info@acme.com" eq_refl eq_refl eq_refl)
           "info@acme.com" eq_refl).
Defined.

(** C7 at the page with two items: two records, the second with null
    fields only. *)
Lemma extract_items_one_record_per_item_witness :
  cfg_extraction (config_with_mode "pagination" []) = Some acme_schema /\
  ex_item_selector acme_schema = Some "div.item" /\
  exists records : list record,
    fst (extract_items (config_with_mode "pagination" []) two_items) =
      Return records /\
    List.length records = 2.
Proof.
  split; [reflexivity|]. split; [reflexivity|].
  destruct (extract_items_one_record_per_item
              (config_with_mode "pagination" []) acme_schema "div.item"
              [("name", FieldSelector "h1");
               ("email", FieldMapping (Some "a.mail") (Some "href"))]
              two_items eq_refl eq_refl eq_refl)
    as (records & Hrun & Hlen & _).
  exists records. split; [now rewrite Hrun | exact Hlen].
Defined.

(** The specification's scenario, end to end: the item with the heading
    [Acme Corp] and the mail link, projected onto name, email and phone. *)
Example acme_scenario :
  fst (main (config_with_mode "infinite_scroll" ["https://a.example"])
         (Scripted.start (Scripted.listing_page "div.item" [Scripted.acme]))) =
  Return [[("name", Some "Acme Corp"); ("email", Some "info@acme.com");
           ("phone", None)]].
Proof. reflexivity. Qed.

(* ================================================================= *)
(** * Further properties of text normalization *)

Section NormalizeShape.

Import PyStr.

Lemma joined_cons_space (c : ascii) (rest : string) :
  isspace c = true -> joined (String c rest) = joined rest.
Proof. intros Hc. unfold joined. simpl. now rewrite Hc. Qed.

(** A word character stays, followed by what the rest gives behind its
    gap. *)
Lemma joined_cons_word (c : ascii) (rest : string) :
  isspace c = false ->
  joined (String c rest) = String c (gap rest ++ joined rest)%string.
Proof.
  intros Hc. unfold joined, gap, join. simpl. rewrite Hc.
  destruct (starts_word rest) eqn:Hw.
  - pose proof (starts_word_split rest Hw) as Hne.
    assert (Hr : starts_with_space rest = false).
    { destruct rest; simpl in *; [reflexivity|]. now apply negb_true_iff. }
    rewrite Hr. simpl.
    destruct (split rest) as [|w [|w' ws]]; simpl; congruence.
  - destruct rest as [|c' rest']; [reflexivity|].
    simpl in Hw. apply negb_false_iff in Hw.
    change (starts_with_space (String c' rest')) with (isspace c').
    rewrite Hw. destruct (split (String c' rest')); reflexivity.
Qed.

Lemma gap_cons_word (c : ascii) (rest : string) :
  isspace c = false -> gap (String c rest) = "".
Proof. intros Hc. unfold gap. simpl. now rewrite Hc. Qed.

Lemma gap_cons_space (c : ascii) (rest : string) :
  isspace c = true ->
  gap (String c rest) = match split rest with [] => "" | _ :: _ => " " end.
Proof. intros Hc. unfold gap. simpl. now rewrite Hc. Qed.

Lemma split_nil_joined (s : string) : split s = [] -> joined s = "".
Proof. unfold joined. now intros ->. Qed.

Lemma tidy_from_word_start (b : bool) (s : string) :
  starts_with_space s = false -> s <> "" -> tidy_from b s = tidy_from true s.
Proof.
  destruct s as [|c rest]; [congruence|]. simpl. now intros ->.
Qed.

Lemma joined_nonempty (s : string) : split s <> [] -> joined s <> "".
Proof. intros Hs Hj. now apply joined_empty in Hj. Qed.

(** What follows a character is single-spaced up to the text's end. *)
Lemma tidy_after_char (s : string) :
  tidy_from false (gap s ++ joined s)%string = true.
Proof.
  induction s as [|c rest IH]; [reflexivity|].
  destruct (isspace c) eqn:Hc.
  - rewrite gap_cons_space, joined_cons_space by exact Hc.
    destruct (split rest) as [|w ws] eqn:Hs.
    + now rewrite (split_nil_joined rest Hs).
    + assert (Hne : joined rest <> "") by (apply joined_nonempty; congruence).
      change (tidy_from true (joined rest) = true).
      unfold gap in IH. rewrite Hs in IH.
      destruct (starts_with_space rest); [exact IH|].
      simpl in IH.
      rewrite <- (tidy_from_word_start false);
        [exact IH | apply joined_head | exact Hne].
  - rewrite gap_cons_word, joined_cons_word by exact Hc.
    simpl. now rewrite Hc.
Qed.

Lemma tidy_joined (s : string) : split s <> [] -> tidy (joined s) = true.
Proof.
  intros Hs. unfold tidy.
  rewrite <- (tidy_from_word_start false);
    [| apply joined_head | now apply joined_nonempty].
  pose proof (tidy_after_char s) as Ht. unfold gap in Ht.
  destruct (starts_with_space s); [|exact Ht].
  destruct (split s) eqn:E; [congruence|].
  change (tidy_from true (joined s) = true) in Ht.
  rewrite (tidy_from_word_start false);
    [exact Ht | apply joined_head
    | apply joined_nonempty; rewrite E; discriminate].
Qed.

Lemma tidy_from_true_nonempty (s : string) : tidy_from true s = true -> s <> "".
Proof. destruct s; [discriminate | congruence]. Qed.

(** Single-spaced text is what its own words give back. *)
Lemma joined_tidy (b : bool) (s : string) :
  tidy_from b s = true ->
  if b then joined s = s else (gap s ++ joined s)%string = s.
Proof.
  revert b. induction s as [|c rest IH]; intros b Ht.
  - destruct b; [discriminate | reflexivity].
  - simpl in Ht. destruct (isspace c) eqn:Hc.
    + apply andb_true_iff in Ht as [Ht Hrest].
      apply andb_true_iff in Ht as [Heq Hb].
      apply Ascii.eqb_eq in Heq. apply negb_true_iff in Hb. subst b c.
      pose proof (IH true Hrest) as Hj. cbv beta iota in Hj.
      rewrite gap_cons_space, joined_cons_space by exact Hc.
      rewrite Hj.
      destruct (split rest) eqn:Hs; [|reflexivity].
      apply split_nil_joined in Hs. rewrite Hj in Hs.
      now apply tidy_from_true_nonempty in Hrest.
    + pose proof (IH false Ht) as Hj. cbv beta iota in Hj.
      rewrite gap_cons_word, joined_cons_word by exact Hc.
      rewrite Hj. now destruct b.
Qed.

Lemma normalize_text_joined (s : string) :
  normalize_text (Some s) =
  match split s with [] => None | _ :: _ => Some (joined s) end.
Proof.
  unfold normalize_text. fold (joined s).
  destruct (split s) eqn:Hs.
  - now rewrite (split_nil_joined s Hs).
  - assert (Hne : joined s <> "") by (apply joined_nonempty; congruence).
    destruct (joined s); [congruence | reflexivity].
Qed.

Lemma all_space_split (s : string) : all_space s = true <-> split s = [].
Proof.
  induction s as [|c rest IH]; simpl; [tauto|].
  destruct (isspace c); simpl; [exact IH|].
  split; [discriminate|].
  destruct (starts_word rest); [destruct (split rest)|]; discriminate.
Qed.

Lemma nonspace_chars_append (s t : string) :
  nonspace_chars (s ++ t)%string = (nonspace_chars s ++ nonspace_chars t)%string.
Proof.
  induction s as [|c rest IH]; simpl; [reflexivity|].
  rewrite IH. now destruct (isspace c).
Qed.

Lemma nonspace_chars_gap (s : string) : nonspace_chars (gap s) = "".
Proof.
  unfold gap. destruct (starts_with_space s); [destruct (split s)|]; reflexivity.
Qed.

Lemma nonspace_chars_joined (s : string) :
  nonspace_chars (joined s) = nonspace_chars s.
Proof.
  induction s as [|c rest IH]; [reflexivity|].
  destruct (isspace c) eqn:Hc.
  - rewrite joined_cons_space by exact Hc. simpl. now rewrite Hc.
  - rewrite joined_cons_word by exact Hc. simpl. rewrite Hc.
    now rewrite nonspace_chars_append, nonspace_chars_gap, IH.
Qed.

End NormalizeShape.

(** A returned string is single-spaced. *)
Lemma normalize_text_shape (s t : string) :
  normalize_text (Some s) = Some t -> tidy t = true.
Proof.
  rewrite normalize_text_joined.
  destruct (PyStr.split s) eqn:Hs; [discriminate|].
  intros [= <-]. apply tidy_joined. congruence.
Qed.

(** A single-spaced string is returned as it is. *)
Lemma normalize_text_fixed (t : string) :
  tidy t = true -> normalize_text (Some t) = Some t.
Proof.
  intros Ht. pose proof (joined_tidy true t Ht) as Hj. cbv beta iota in Hj.
  rewrite normalize_text_joined.
  destruct (PyStr.split t) eqn:Hs; [|now rewrite Hj].
  apply split_nil_joined in Hs. rewrite Hj in Hs.
  now apply tidy_from_true_nonempty in Ht.
Qed.

(** X1. The results of [normalize_text] are exactly the single-spaced
    texts: a returned string is never empty, has no whitespace at either
    end and no whitespace other than single ASCII spaces between words, and
    every such string is returned as it is. *)
Theorem normalize_text_tidy :
  (forall s t : string, normalize_text (Some s) = Some t -> tidy t = true) /\
  (forall t : string, tidy t = true <-> normalize_text (Some t) = Some t).
Proof.
  split; [exact normalize_text_shape|].
  intros t. split; [apply normalize_text_fixed | apply normalize_text_shape].
Qed.

(** X2. [normalize_text] is idempotent: normalizing a normalized value,
    null included, changes nothing. *)
Theorem normalize_text_idempotent (value : option string) :
  normalize_text (normalize_text value) = normalize_text value.
Proof.
  destruct value as [s|]; [|reflexivity].
  destruct (normalize_text (Some s)) as [t|] eqn:Hn; [|reflexivity].
  apply normalize_text_fixed. now apply normalize_text_shape with s.
Qed.

(** X3. [normalize_text] returns null for a string exactly when the string
    has no character besides whitespace (the empty string included). *)
Theorem normalize_text_null_iff (s : string) :
  normalize_text (Some s) = None <-> all_space s = true.
Proof.
  rewrite normalize_text_joined, all_space_split.
  destruct (PyStr.split s); split; congruence.
Qed.

(** X4. [normalize_text] changes whitespace only: the characters of the
    result which are not whitespace are those of the input, in the same
    order (none at all when the result is null). *)
Theorem normalize_text_keeps_characters (s : string) :
  nonspace_chars
    (match normalize_text (Some s) with Some t => t | None => "" end) =
  nonspace_chars s.
Proof.
  rewrite normalize_text_joined.
  destruct (PyStr.split s) eqn:Hs.
  - apply split_nil_joined in Hs. rewrite <- (nonspace_chars_joined s), Hs.
    reflexivity.
  - apply nonspace_chars_joined.
Qed.

(* ================================================================= *)
(** * Further properties of field and record extraction *)

Section ExtractMore.

Context {Page Element : Type} `{PageDriver Page Element}.

Lemma normalize_text_result (value : option string) :
  match normalize_text value with
  | Some t => tidy t = true
  | None => True
  end.
Proof.
  destruct value as [s|]; [|exact I].
  destruct (normalize_text (Some s)) as [t|] eqn:Hn; [|exact I].
  exact (normalize_text_shape s t Hn).
Qed.

(** X5. Whatever the element and the field specification, an extracted
    value is null or single-spaced text: never the empty string, never with
    whitespace at an end or a whitespace character other than single ASCII
    spaces between words. *)
Theorem extract_value_null_or_tidy (element : Element) (fc : field_config) :
  match extract_value element fc with
  | Some t => tidy t = true
  | None => True
  end.
Proof.
  destruct fc as [selector|selector attr]; unfold extract_value.
  - destruct (el_query_selector selector element); [|exact I].
    apply normalize_text_result.
  - destruct selector as [sel|]; [|exact I].
    destruct (negb (PyStr.nonempty sel)); [exact I|].
    destruct (el_query_selector sel element) as [target|]; [|exact I].
    destruct attr as [a|]; [|apply normalize_text_result].
    destruct (PyStr.nonempty a); apply normalize_text_result.
Qed.

(** X6. A selector that matches no descendant of the element gives null,
    for a bare selector and for a mapping with any attribute alike. *)
Theorem extract_value_descendant_missing (element : Element)
  (selector : string) (attr : option string) :
  el_query_selector selector element = None ->
  extract_value element (FieldSelector selector) = None /\
  extract_value element (FieldMapping (Some selector) attr) = None.
Proof.
  intros Hq. unfold extract_value. rewrite Hq.
  split; [reflexivity|]. now destruct (negb (PyStr.nonempty selector)).
Qed.

(** X7. A mapping with a non-empty selector and no attribute (the key is
    missing or its value is empty) extracts what the bare selector
    extracts: the normalized inner text of the first match. *)
Theorem extract_value_mapping_without_attr (element : Element)
  (selector : string) (attr : option string) :
  PyStr.nonempty selector = true ->
  truthy attr = false ->
  extract_value element (FieldMapping (Some selector) attr) =
  extract_value element (FieldSelector selector).
Proof.
  intros Hs Ha. unfold extract_value. rewrite Hs. cbn [negb].
  destruct (el_query_selector selector element) as [target|]; [|reflexivity].
  destruct attr as [a|]; [|reflexivity].
  cbn [truthy] in Ha. now rewrite Ha.
Qed.

(** X8. Reading an attribute other than [href] never strips anything: the
    result is the normalized raw attribute value, a leading [mailto:]
    included, and null when the element lacks the attribute.  A missing
    [href] gives null as well. *)
Theorem extract_value_plain_attribute (element target : Element)
  (selector attr : string) :
  PyStr.nonempty selector = true ->
  PyStr.nonempty attr = true ->
  el_query_selector selector element = Some target ->
  attr <> "href" \/ el_get_attribute attr target = None ->
  extract_value element (FieldMapping (Some selector) (Some attr)) =
  normalize_text (el_get_attribute attr target).
Proof.
  intros Hs Ha Hq Hplain. unfold extract_value.
  rewrite Hs, Hq, Ha. cbn [negb].
  destruct (el_get_attribute attr target) as [v|]; [|reflexivity].
  destruct Hplain as [Hne|Hnone]; [|discriminate].
  apply String.eqb_neq in Hne. rewrite Hne.
  now rewrite andb_false_r.
Qed.

(** X9. A configuration that lacks the [extraction] mapping, or whose
    mapping lacks [item_selector] or [fields], makes [extract_items] raise
    a [KeyError] naming the first missing key, before any call on the page:
    page and trace are as they were. *)
Theorem extract_items_missing_key (cfg : config) (w : World Page) :
  (cfg_extraction cfg = None ->
   extract_items cfg w = (Raise (KeyError "extraction"), w)) /\
  (forall ex : extraction_config,
      cfg_extraction cfg = Some ex ->
      ex_item_selector ex = None ->
      extract_items cfg w = (Raise (KeyError "item_selector"), w)) /\
  (forall (ex : extraction_config) (selector : string),
      cfg_extraction cfg = Some ex ->
      ex_item_selector ex = Some selector ->
      ex_fields ex = None ->
      extract_items cfg w = (Raise (KeyError "fields"), w)).
Proof.
  unfold extract_items, bind, subscript. repeat split.
  - now intros ->.
  - intros ex -> Hs. cbn. now rewrite Hs.
  - intros ex selector -> Hs Hf. cbn. rewrite Hs. cbn. now rewrite Hf.
Qed.

End ExtractMore.

(* ================================================================= *)
(** * Further properties of infinite-scroll traversal *)

Section ScrollMore.

Context {Page Element : Type} `{PageDriver Page Element}.

Lemma scroll_events_cons (pause_ms h : Z) (heights : list Z) :
  scroll_events pause_ms (h :: heights) =
  scroll_events pause_ms [h] ++ scroll_events pause_ms heights.
Proof. reflexivity. Qed.

Lemma readings_length (pause_ms : Z) (n : nat) (p : Page) :
  List.length (readings pause_ms n p) = n.
Proof.
  revert p. induction n as [|n IH]; intros p; simpl; [reflexivity|].
  now rewrite IH.
Qed.

Lemma repeat_snoc (h : Z) (n : nat) : repeat h n ++ [h] = repeat h (S n).
Proof. induction n as [|n IH]; simpl; [reflexivity | now rewrite IH]. Qed.

(** The scroll loop, whatever its counters: it returns after [k]
    iterations, [k] at most the iterations left; each iteration scrolls,
    waits and measures; and when the loop ends with iterations to spare,
    the heights seen (the [history] before the loop, whose last
    [unchanged + 1] entries are [previous], then the readings) end with
    [stop + 1] equal entries. *)
Lemma scroll_loop_run (n : nat) (pause_ms stop : Z) :
  forall (unchanged previous : Z) (history : list Z) (w : World Page),
    (0 <= unchanged)%Z ->
    exists k : nat,
      k <= n /\
      (0 < n -> 0 < k) /\
      scroll_loop n pause_ms stop unchanged previous w =
        (Return tt,
         {| w_page := scrolled_times pause_ms k (w_page w);
            w_trace :=
              w_trace w
                ++ scroll_events pause_ms (readings pause_ms k (w_page w)) |}) /\
      (k < n -> (0 < stop)%Z ->
       exists (front : list Z) (h : Z),
         history ++ repeat previous (S (Z.to_nat unchanged))
           ++ readings pause_ms k (w_page w) =
         front ++ repeat h (S (Z.to_nat stop))).
Proof.
  induction n as [|n IH]; intros unchanged previous history w Hu.
  - exists 0. split; [lia|]. split; [lia|]. split; [|lia].
    cbn. rewrite app_nil_r. now destruct w.
  - rewrite scroll_loop_step. cbv zeta.
    set (p := scrolled pause_ms (w_page w)).
    set (h := drv_scroll_height p).
    set (u := if (h =? previous)%Z then (unchanged + 1)%Z else 0%Z).
    assert (Hu' : (0 <= u)%Z) by (subst u; destruct (h =? previous)%Z; lia).
    assert (Hhist : exists history',
               history ++ repeat previous (S (Z.to_nat unchanged)) ++ [h] =
               history' ++ repeat h (S (Z.to_nat u))).
    { subst u. destruct (h =? previous)%Z eqn:E.
      - apply Z.eqb_eq in E. exists history. rewrite <- E.
        rewrite repeat_snoc. f_equal. f_equal. f_equal. lia.
      - exists (history ++ repeat previous (S (Z.to_nat unchanged))).
        now rewrite app_assoc. }
    destruct Hhist as [history' Hhist].
    destruct (u >=? stop)%Z eqn:Hstop.
    + exists 1. split; [lia|]. split; [lia|]. split; [reflexivity|].
      intros _ Hpos. cbn [readings]. fold p. fold h.
      rewrite Hhist.
      apply Z.geb_le in Hstop.
      exists (history' ++ repeat h (Z.to_nat u - Z.to_nat stop)), h.
      rewrite <- app_assoc, <- repeat_app. f_equal. f_equal. lia.
    + destruct (IH u h history'
                  {| w_page := p;
                     w_trace := w_trace w ++ scroll_events pause_ms [h] |} Hu')
        as (k & Hk & _ & Hrun & Hstable).
      exists (S k). split; [lia|]. split; [lia|]. split.
      * rewrite Hrun. cbn [w_page w_trace scrolled_times readings].
        fold p. fold h. rewrite (scroll_events_cons pause_ms h).
        now rewrite <- app_assoc.
      * intros Hlt Hpos. cbn [readings]. fold p. fold h.
        destruct (Hstable ltac:(lia) Hpos) as (front & h' & Heq).
        cbn [w_page] in Heq. exists front, h'. rewrite <- Heq.
        rewrite (app_assoc history'), <- Hhist.
        rewrite <- !app_assoc. reflexivity.
Qed.

(** [scroll_page] as a number of iterations of scroll, wait and
    measurement. *)
Lemma scroll_page_steps (sc : scroll_config) (w : World Page) :
  exists k : nat,
    k <= Z.to_nat (get_or (sc_max_scrolls sc) 50%Z) /\
    (0 < Z.to_nat (get_or (sc_max_scrolls sc) 50%Z) -> 0 < k) /\
    scroll_page sc w =
      (Return tt,
       {| w_page := scrolled_times (get_or (sc_pause_ms sc) 1200%Z) k (w_page w);
          w_trace :=
            w_trace w
              ++ scroll_events (get_or (sc_pause_ms sc) 1200%Z)
                   (readings (get_or (sc_pause_ms sc) 1200%Z) k (w_page w)) |}).
Proof.
  unfold scroll_page.
  destruct (scroll_loop_run (range_len (get_or (sc_max_scrolls sc) 50%Z))
              (get_or (sc_pause_ms sc) 1200%Z)
              (get_or (sc_stop_after_unchanged sc) 3%Z) 0%Z 0%Z [] w
              ltac:(lia)) as (k & Hk & Hpos & Hrun & _).
  exists k. repeat split; assumption.
Qed.

(** X10. [scroll_page] never raises and never runs more than
    [max_scrolls] iterations: it ends after some [k] of them, each a scroll
    to the bottom, a wait of [pause_ms] and one height measurement, in this
    order and with nothing else in the trace; with [max_scrolls] at least 1
    it measures at least once. *)
Theorem scroll_page_run (sc : scroll_config) (w : World Page) :
  exists k : nat,
    (Z.of_nat k <= Z.max 0 (get_or (sc_max_scrolls sc) 50))%Z /\
    ((0 < get_or (sc_max_scrolls sc) 50)%Z -> 0 < k) /\
    scroll_page sc w =
      (Return tt,
       {| w_page := scrolled_times (get_or (sc_pause_ms sc) 1200%Z) k (w_page w);
          w_trace :=
            w_trace w
              ++ scroll_events (get_or (sc_pause_ms sc) 1200%Z)
                   (readings (get_or (sc_pause_ms sc) 1200%Z) k (w_page w)) |}) /\
    measurements
      (scroll_events (get_or (sc_pause_ms sc) 1200%Z)
         (readings (get_or (sc_pause_ms sc) 1200%Z) k (w_page w))) = k.
Proof.
  destruct (scroll_page_steps sc w) as (k & Hk & Hpos & Hrun).
  exists k. split; [lia|]. split; [intros; apply Hpos; lia|].
  split; [exact Hrun|].
  now rewrite measurements_scroll_events, readings_length.
Qed.

(** X11. With [max_scrolls] zero or negative [scroll_page] does nothing:
    no call on the page, page and trace as they were. *)
Theorem scroll_page_no_scrolls (sc : scroll_config) (w : World Page) :
  (get_or (sc_max_scrolls sc) 50 <= 0)%Z ->
  scroll_page sc w = (Return tt, w).
Proof.
  intros Hmax. unfold scroll_page, range_len.
  replace (Z.to_nat (get_or (sc_max_scrolls sc) 50%Z)) with 0 by lia.
  reflexivity.
Qed.

(** X12. With [stop_after_unchanged] zero or negative and [max_scrolls] at
    least 1, [scroll_page] stops after its first iteration whatever the
    page shows: one scroll, one wait, one measurement. *)
Theorem scroll_page_stops_at_once (sc : scroll_config) (w : World Page) :
  (get_or (sc_stop_after_unchanged sc) 3 <= 0)%Z ->
  (0 < get_or (sc_max_scrolls sc) 50)%Z ->
  scroll_page sc w =
    (Return tt,
     {| w_page := scrolled (get_or (sc_pause_ms sc) 1200%Z) (w_page w);
        w_trace :=
          w_trace w
            ++ [ScrollToBottom;
                WaitForTimeout (get_or (sc_pause_ms sc) 1200%Z);
                ReadHeight
                  (drv_scroll_height
                     (scrolled (get_or (sc_pause_ms sc) 1200%Z) (w_page w)))] |}).
Proof.
  intros Hstop Hmax. unfold scroll_page, range_len.
  destruct (Z.to_nat (get_or (sc_max_scrolls sc) 50%Z)) as [|n] eqn:Hn; [lia|].
  rewrite scroll_loop_step. cbv zeta.
  match goal with
  | |- context [(?u >=? ?s)%Z] =>
      assert (Hge : (u >=? s)%Z = true)
        by (apply Z.geb_le; destruct (_ =? 0)%Z; lia)
  end.
  rewrite Hge. reflexivity.
Qed.

(** X13. When [scroll_page] ends before [max_scrolls] iterations are used
    up (and [stop_after_unchanged] is at least 1), the page was stable: the
    baseline 0 followed by the measured heights ends with
    [stop_after_unchanged + 1] equal heights, so each of the last
    [stop_after_unchanged] measurements repeated the one before it. *)
Theorem scroll_page_early_stop_is_stable (sc : scroll_config) (w : World Page) :
  (0 < get_or (sc_stop_after_unchanged sc) 3)%Z ->
  exists k : nat,
    heights_read (w_trace (snd (scroll_page sc w))) =
      heights_read (w_trace w)
        ++ readings (get_or (sc_pause_ms sc) 1200%Z) k (w_page w) /\
    ((Z.of_nat k < get_or (sc_max_scrolls sc) 50)%Z ->
     exists (front : list Z) (h : Z),
       0%Z :: readings (get_or (sc_pause_ms sc) 1200%Z) k (w_page w) =
       front
         ++ repeat h (S (Z.to_nat (get_or (sc_stop_after_unchanged sc) 3%Z)))).
Proof.
  intros Hstop. unfold scroll_page.
  destruct (scroll_loop_run (range_len (get_or (sc_max_scrolls sc) 50%Z))
              (get_or (sc_pause_ms sc) 1200%Z)
              (get_or (sc_stop_after_unchanged sc) 3%Z) 0%Z 0%Z [] w
              ltac:(lia)) as (k & Hk & _ & Hrun & Hstable).
  exists k. rewrite Hrun. cbn [snd w_trace]. split.
  - clear. induction (w_trace w) as [|e t IH]; simpl.
    + now rewrite heights_read_scroll_events.
    + destruct e; simpl; now rewrite IH.
  - intros Hlt. unfold range_len in *.
    destruct (Hstable ltac:(lia) Hstop) as (front & h & Heq).
    exists front, h. exact Heq.
Qed.

End ScrollMore.

Section ScrollMinimal.

Context {Page Element : Type} `{PageDriver Page Element}.

(** A run of equal entries at the end of a list which is longer than
    another one swallows the entry before the shorter. *)
Lemma longer_run_swallows (u : nat) :
  forall (m : nat) (l1 l2 : list Z) (h h' : Z),
    l1 ++ repeat h (S u) = l2 ++ repeat h' (S m) ->
    u < m ->
    exists l1' : list Z, l1 = l1' ++ [h].
Proof.
  induction u as [|u IH]; intros m l1 l2 h h' Heq Hlt.
  - destruct m as [|m]; [lia|].
    rewrite <- (repeat_snoc h' (S m)) in Heq.
    change (repeat h 1) with [h] in Heq.
    rewrite app_assoc in Heq. apply app_inj_tail in Heq as [Heq ->].
    rewrite <- (repeat_snoc h' m), app_assoc in Heq.
    now exists (l2 ++ repeat h' m).
  - destruct m as [|m]; [lia|].
    rewrite <- (repeat_snoc h (S u)), <- (repeat_snoc h' (S m)) in Heq.
    rewrite !app_assoc in Heq. apply app_inj_tail in Heq as [Heq ->].
    apply (IH m l1 l2 h' h' Heq). lia.
Qed.

Lemma ends_with_run_longest (l : list Z) (h : Z) (u : nat) :
  ends_with_run l h u ->
  forall (m : nat) (front : list Z) (h' : Z),
    l = front ++ repeat h' (S m) -> m <= u.
Proof.
  intros (l1 & -> & Hfront) m front h' Heq.
  destruct (Nat.le_gt_cases m u) as [Hle|Hgt]; [exact Hle|].
  destruct (longer_run_swallows u m l1 front h h' Heq Hgt) as [l1' ->].
  destruct Hfront as [Hnil|(f & x & Hx & Hne)].
  - now destruct l1'.
  - apply app_inj_tail in Hx as [_ <-]. congruence.
Qed.

Lemma ends_with_run_next (l : list Z) (previous h : Z) (u : nat) :
  ends_with_run l previous u ->
  ends_with_run (l ++ [h]) h (if (h =? previous)%Z then S u else 0).
Proof.
  intros (front & -> & Hfront). destruct (h =? previous)%Z eqn:E.
  - apply Z.eqb_eq in E. subst h. exists front. split; [|exact Hfront].
    now rewrite <- app_assoc, repeat_snoc.
  - apply Z.eqb_neq in E. exists (front ++ repeat previous (S u)).
    split; [reflexivity|]. right.
    exists (front ++ repeat previous u), previous.
    split; [|congruence]. now rewrite <- app_assoc, repeat_snoc.
Qed.

(** The scroll loop goes on as long as the heights seen do not end with
    [stop + 1] equal entries. *)
Lemma scroll_loop_goes_on (n : nat) (pause_ms stop : Z) :
  (0 < stop)%Z ->
  forall (unchanged previous : Z) (history : list Z) (w : World Page),
    (0 <= unchanged < stop)%Z ->
    ends_with_run history previous (Z.to_nat unchanged) ->
    exists k : nat,
      scroll_loop n pause_ms stop unchanged previous w =
        (Return tt,
         {| w_page := scrolled_times pause_ms k (w_page w);
            w_trace :=
              w_trace w
                ++ scroll_events pause_ms (readings pause_ms k (w_page w)) |}) /\
      forall j : nat,
        0 < j < k ->
        ~ exists (front : list Z) (h : Z),
            history ++ readings pause_ms j (w_page w) =
            front ++ repeat h (S (Z.to_nat stop)).
Proof.
  intros Hpos.
  induction n as [|n IH]; intros unchanged previous history w Hu Hrun.
  - exists 0. split; [|lia]. cbn. rewrite app_nil_r. now destruct w.
  - rewrite scroll_loop_step. cbv zeta.
    set (p := scrolled pause_ms (w_page w)).
    set (h := drv_scroll_height p).
    set (u := if (h =? previous)%Z then (unchanged + 1)%Z else 0%Z).
    assert (Hnext : ends_with_run (history ++ [h]) h (Z.to_nat u)).
    { pose proof (ends_with_run_next history previous h _ Hrun) as Hn.
      subst u. destruct (h =? previous)%Z; [|exact Hn].
      replace (Z.to_nat (unchanged + 1)) with (S (Z.to_nat unchanged)) by lia.
      exact Hn. }
    destruct (u >=? stop)%Z eqn:Hstop.
    + exists 1. split; [reflexivity | lia].
    + assert (Hu' : (0 <= u < stop)%Z).
      { rewrite Z.geb_leb in Hstop. apply Z.leb_gt in Hstop.
        subst u. destruct (h =? previous)%Z; lia. }
      destruct (IH u h (history ++ [h])
                  {| w_page := p;
                     w_trace := w_trace w ++ scroll_events pause_ms [h] |}
                  Hu' Hnext) as (k & Hloop & Hon).
      exists (S k). split.
      * rewrite Hloop. cbn [w_page w_trace scrolled_times readings].
        fold p. fold h. rewrite (scroll_events_cons pause_ms h).
        now rewrite <- app_assoc.
      * intros j Hj (front & h' & Heq). cbn [w_page] in Hon.
        destruct j as [|[|j]]; [lia| |].
        -- cbn [readings] in Heq. fold p in Heq. fold h in Heq.
           pose proof (ends_with_run_longest _ _ _ Hnext _ _ _ Heq). lia.
        -- apply (Hon (S j)); [lia|]. exists front, h'.
           rewrite <- Heq. cbn [readings]. fold p. fold h.
           now rewrite <- app_assoc.
Qed.

(** X27. [scroll_page] does not stop while the page still changes: before
    its last iteration (and with [stop_after_unchanged] at least 1), the
    baseline 0 followed by the heights measured so far never ends with
    [stop_after_unchanged + 1] equal heights. *)
Theorem scroll_page_goes_on_until_stable (sc : scroll_config) (w : World Page) :
  (0 < get_or (sc_stop_after_unchanged sc) 3)%Z ->
  exists k : nat,
    scroll_page sc w =
      (Return tt,
       {| w_page := scrolled_times (get_or (sc_pause_ms sc) 1200%Z) k (w_page w);
          w_trace :=
            w_trace w
              ++ scroll_events (get_or (sc_pause_ms sc) 1200%Z)
                   (readings (get_or (sc_pause_ms sc) 1200%Z) k (w_page w)) |}) /\
    forall j : nat,
      0 < j < k ->
      ~ exists (front : list Z) (h : Z),
          0%Z :: readings (get_or (sc_pause_ms sc) 1200%Z) j (w_page w) =
          front
            ++ repeat h (S (Z.to_nat (get_or (sc_stop_after_unchanged sc) 3%Z))).
Proof.
  intros Hstop. unfold scroll_page.
  apply (scroll_loop_goes_on _ _ _ Hstop 0%Z 0%Z [0%Z] w); [lia|].
  exists []. split; [reflexivity | now left].
Qed.

End ScrollMinimal.

(* ================================================================= *)
(** * Further properties of the pagination strategies *)

Section PaginateMore.

Context {Page Element : Type} `{PageDriver Page Element}.

(** X14. With [max_pages] zero or negative [paginate] does nothing,
    whatever the callback and the selector: the callback is not called, no
    call is made on the page, and the result is the empty list. *)
Theorem paginate_no_pages (pc : pagination_config)
  (extract_callback : M (World Page) (list record)) (w : World Page) :
  (get_or (pg_max_pages pc) 50 <= 0)%Z ->
  paginate pc extract_callback w = (Return [], w).
Proof.
  intros Hmax. unfold paginate, range_len.
  replace (Z.to_nat (get_or (pg_max_pages pc) 50%Z)) with 0 by lia.
  reflexivity.
Qed.

(** X15. An exception raised by the first call of the extraction callback
    ends [paginate] with that exception, in the state the callback left:
    the next control is not looked for and nothing is clicked. *)
Theorem paginate_callback_raises (pc : pagination_config)
  (extract_callback : M (World Page) (list record)) (w w' : World Page)
  (e : exn) :
  (0 < get_or (pg_max_pages pc) 50)%Z ->
  extract_callback w = (Raise e, w') ->
  paginate pc extract_callback w = (Raise e, w').
Proof.
  intros Hmax Hcb. unfold paginate, range_len.
  destruct (Z.to_nat (get_or (pg_max_pages pc) 50%Z)) as [|n] eqn:Hn; [lia|].
  cbn [paginate_loop]. unfold bind. now rewrite Hcb.
Qed.

(** X16. With a next-button selector configured but no element matching it
    on the page the first extraction leaves, [paginate] ends there: the
    first extraction's records are returned after one lookup of the
    control, and nothing is clicked or waited for. *)
Theorem paginate_next_control_absent (pc : pagination_config)
  (extract_callback : M (World Page) (list record)) (selector : string)
  (records : list record) (w w' : World Page) :
  (0 < get_or (pg_max_pages pc) 50)%Z ->
  pg_next_button_selector pc = Some selector ->
  PyStr.nonempty selector = true ->
  extract_callback w = (Return records, w') ->
  drv_query_selector selector (w_page w') = None ->
  paginate pc extract_callback w =
    (Return records,
     {| w_page := w_page w';
        w_trace := w_trace w' ++ [QuerySelector selector] |}).
Proof.
  intros Hmax Hsel Hne Hcb Hq. unfold paginate, range_len.
  destruct (Z.to_nat (get_or (pg_max_pages pc) 50%Z)) as [|n] eqn:Hn; [lia|].
  cbn [paginate_loop]. unfold bind at 1. rewrite Hcb, Hsel.
  cbn [truthy get_or]. rewrite Hne. cbn [negb].
  unfold bind, page_query_selector, query. cbn. now rewrite Hq.
Qed.

(** The click loop with the Record Extractor as callback. *)
Lemma paginate_loop_bounded (n : nat) (pc : pagination_config) (cfg : config)
  (ex : extraction_config) (selector : string) (fields : dict field_config) :
  cfg_extraction cfg = Some ex ->
  ex_item_selector ex = Some selector ->
  ex_fields ex = Some fields ->
  forall (results : list record) (w : World Page),
  exists (records : list record) (more : list event) (p : Page),
    paginate_loop n pc (extract_items cfg) results w =
      (Return (results ++ records),
       {| w_page := p; w_trace := w_trace w ++ more |}) /\
    extractions more <= n /\
    (0 < n -> 0 < extractions more) /\
    navigations more = 0.
Proof.
  intros He Hs Hf. induction n as [|n IH]; intros results w.
  - exists [], [], (w_page w). cbn. rewrite !app_nil_r.
    split; [now destruct w|]. repeat split; lia.
  - cbn [paginate_loop]. unfold bind at 1.
    rewrite (extract_items_run cfg ex selector fields w He Hs Hf).
    set (found := map (fun element => fill_record element fields [])
                      (drv_query_selector_all selector (w_page w))).
    destruct (negb (truthy (pg_next_button_selector pc))).
    + exists found, [QuerySelectorAll selector], (w_page w).
      split; [reflexivity|]. cbn. repeat split; lia.
    + unfold bind at 1. unfold page_query_selector, query. cbn [w_page w_trace].
      destruct (drv_query_selector _ (w_page w)) as [button|].
      * unfold bind at 1 2. unfold element_click, page_wait_for_timeout, call.
        cbn [w_page w_trace].
        match goal with
        | |- context [paginate_loop n pc (extract_items cfg) ?r ?w1] =>
            destruct (IH r w1) as (records & more & p & Hrun & Hle & _ & Hnav)
        end.
        rewrite Hrun. cbn [w_trace].
        exists (found ++ records),
          ([QuerySelectorAll selector;
            QuerySelector (get_or (pg_next_button_selector pc) "");
            Click; WaitForTimeout (get_or (pg_pause_ms pc) 1500%Z)] ++ more), p.
        split; [now rewrite <- !app_assoc|].
        rewrite extractions_app, navigations_app, Hnav. cbn.
        repeat split; lia.
      * exists found,
          [QuerySelectorAll selector;
           QuerySelector (get_or (pg_next_button_selector pc) "")], (w_page w).
        split; [now rewrite <- !app_assoc|]. cbn. repeat split; lia.
Qed.

(** X17. Click-based pagination with the Record Extractor as callback and
    an extraction schema configured: the run returns (it never raises),
    invokes the Record Extractor at most [max_pages] times, at least once
    when [max_pages] is at least 1, and never navigates. *)
Theorem paginate_bounded (pc : pagination_config) (cfg : config)
  (ex : extraction_config) (selector : string) (fields : dict field_config)
  (w : World Page) :
  cfg_extraction cfg = Some ex ->
  ex_item_selector ex = Some selector ->
  ex_fields ex = Some fields ->
  exists (records : list record) (more : list event) (p : Page),
    paginate pc (extract_items cfg) w =
      (Return records, {| w_page := p; w_trace := w_trace w ++ more |}) /\
    (Z.of_nat (extractions more) <= Z.max 0 (get_or (pg_max_pages pc) 50))%Z /\
    ((0 < get_or (pg_max_pages pc) 50)%Z -> 0 < extractions more) /\
    navigations more = 0.
Proof.
  intros He Hs Hf. unfold paginate.
  destruct (paginate_loop_bounded (range_len (get_or (pg_max_pages pc) 50%Z))
              pc cfg ex selector fields He Hs Hf [] w)
    as (records & more & p & Hrun & Hle & Hpos & Hnav).
  unfold range_len in *.
  exists records, more, p. split; [exact Hrun|].
  split; [lia|]. split; [intros; apply Hpos; lia | exact Hnav].
Qed.

(** X18. Without a URL template (the key is missing or its value is
    empty) [paginate_by_url] returns the empty list at once: no
    navigation, no call of the callback. *)
Theorem paginate_by_url_without_template (pc : pagination_config)
  (extract_callback : M (World Page) (list record)) (w : World Page) :
  truthy (pg_url_template pc) = false ->
  paginate_by_url pc extract_callback w = (Return [], w).
Proof. intros Ht. unfold paginate_by_url. now rewrite Ht. Qed.



End PaginateMore.

Section ClickThrough.

Context {Page Element : Type} `{PageDriver Page Element}.

(** The click loop on pages which all show the next control. *)
Lemma paginate_loop_clicks_through (pc : pagination_config) (cfg : config)
  (ex : extraction_config) (item_selector next_selector : string)
  (fields : dict field_config) :
  cfg_extraction cfg = Some ex ->
  ex_item_selector ex = Some item_selector ->
  ex_fields ex = Some fields ->
  pg_next_button_selector pc = Some next_selector ->
  PyStr.nonempty next_selector = true ->
  forall (n : nat) (results : list record) (w : World Page)
         (pages : list Page) (final : Page),
    pages_clicked n next_selector (get_or (pg_pause_ms pc) 1500%Z) (w_page w)
      = Some (pages, final) ->
    paginate_loop n pc (extract_items cfg) results w =
      (Return (results ++ flat_map (records_on item_selector fields) pages),
       {| w_page := final;
          w_trace :=
            w_trace w
              ++ flat_map
                   (fun _ : Page =>
                      click_page_events item_selector next_selector
                        (get_or (pg_pause_ms pc) 1500%Z))
                   pages |}).
Proof.
  intros He Hs Hf Hsel Hne.
  induction n as [|n IH]; intros results w pages final Hpages.
  - cbn in Hpages. injection Hpages as <- <-. cbn. rewrite !app_nil_r.
    now destruct w.
  - cbn [pages_clicked] in Hpages. unfold turn_page in Hpages.
    destruct (drv_query_selector next_selector (w_page w)) as [button|] eqn:Hq;
      [|discriminate].
    destruct (pages_clicked n next_selector _ _) as [[pages' final']|] eqn:Hrest;
      [|discriminate].
    injection Hpages as <- <-.
    cbn [paginate_loop]. unfold bind at 1.
    rewrite (extract_items_run cfg ex item_selector fields w He Hs Hf).
    rewrite Hsel. cbn [truthy get_or]. rewrite Hne. cbn [negb].
    unfold bind at 1. unfold page_query_selector, query. cbn [w_page w_trace].
    rewrite Hq. unfold bind at 1 2.
    unfold element_click, page_wait_for_timeout, call. cbn [w_page w_trace].
    erewrite IH by exact Hrest.
    cbn [w_trace flat_map]. unfold records_on at 2, click_page_events at 2.
    now rewrite <- !app_assoc.
Qed.

(** X26. Click-based pagination on pages which all show the next control:
    the run extracts from [max_pages] pages, one reached from the other by
    a click and the pause, and returns their records in the order of the
    pages; every extraction is followed by a lookup of the control, a click
    and a wait, the last one included, so the run ends on the page after
    the last one it extracted from. *)
Theorem paginate_clicks_through (pc : pagination_config) (cfg : config)
  (ex : extraction_config) (item_selector next_selector : string)
  (fields : dict field_config) (w : World Page)
  (pages : list Page) (final : Page) :
  cfg_extraction cfg = Some ex ->
  ex_item_selector ex = Some item_selector ->
  ex_fields ex = Some fields ->
  pg_next_button_selector pc = Some next_selector ->
  PyStr.nonempty next_selector = true ->
  pages_clicked (Z.to_nat (get_or (pg_max_pages pc) 50%Z)) next_selector
    (get_or (pg_pause_ms pc) 1500%Z) (w_page w) = Some (pages, final) ->
  paginate pc (extract_items cfg) w =
    (Return (flat_map (records_on item_selector fields) pages),
     {| w_page := final;
        w_trace :=
          w_trace w
            ++ flat_map
                 (fun _ : Page =>
                    click_page_events item_selector next_selector
                      (get_or (pg_pause_ms pc) 1500%Z))
                 pages |}) /\
  List.length pages = Z.to_nat (get_or (pg_max_pages pc) 50%Z).
Proof.
  intros He Hs Hf Hsel Hne Hpages. split.
  - unfold paginate, range_len.
    exact (paginate_loop_clicks_through pc cfg ex item_selector next_selector
             fields He Hs Hf Hsel Hne _ [] w pages final Hpages).
  - clear - Hpages. revert pages Hpages.
    generalize (w_page w) as p.
    induction (Z.to_nat (get_or (pg_max_pages pc) 50%Z)) as [|n IH];
      intros p pages Hpages; cbn [pages_clicked] in Hpages.
    + now injection Hpages as <- _.
    + destruct (turn_page _ _ p) as [p'|]; [|discriminate].
      destruct (pages_clicked n _ _ p') as [[pages' final']|] eqn:Hrest;
        [|discriminate].
      injection Hpages as <- ->. cbn. f_equal. now apply (IH p').
Qed.

End ClickThrough.

(* ================================================================= *)
(** * Further properties of the schema projector *)

Section ProjectMore.

Implicit Types (r : record) (columns : list string).

(** Two dictionaries with the same keys in the same order, each key once,
    and the same value at every key are the same dictionary. *)
Lemma dict_ext {V : Type} (d1 d2 : dict V) :
  keys d1 = keys d2 ->
  NoDup (keys d1) ->
  (forall k, In k (keys d1) -> dict_get k d1 = dict_get k d2) ->
  d1 = d2.
Proof.
  revert d2. induction d1 as [|[k v] d1 IH]; intros [|[k2 v2] d2] Hk Hn Hg;
    try discriminate; [reflexivity|].
  simpl in Hk. injection Hk as <- Hk'.
  simpl in Hn. apply NoDup_cons_iff in Hn as [Hout Hn].
  pose proof (Hg k (or_introl eq_refl)) as Hv. simpl in Hv.
  rewrite String.eqb_refl in Hv. injection Hv as <-.
  f_equal. apply IH; [exact Hk' | exact Hn |].
  intros k' Hin. specialize (Hg k' (or_intror Hin)). simpl in Hg.
  destruct (String.eqb k' k) eqn:E; [|exact Hg].
  apply String.eqb_eq in E. subst k'. contradiction.
Qed.

Lemma dict_get_In_keys {V : Type} (d : dict V) (k : string) :
  In k (keys d) -> exists v, dict_get k d = Some v.
Proof.
  induction d as [|[k' v'] d IH]; simpl; [tauto|].
  intros Hin. destruct (String.eqb k k') eqn:E; [now eexists|].
  apply String.eqb_neq in E. destruct Hin as [->|Hin]; [congruence|].
  now apply IH.
Qed.

Lemma project_fixed r columns :
  keys r = columns -> NoDup columns -> project r columns = r.
Proof.
  intros Hk Hn. apply dict_ext.
  - rewrite keys_project, distinct_fixed by exact Hn. now symmetry.
  - rewrite keys_project. apply distinct_NoDup.
  - intros k Hin. rewrite keys_project in Hin.
    apply (proj1 (distinct_In columns k)) in Hin.
    rewrite dict_get_project.
    rewrite (proj2 (mem_In k columns) Hin). unfold record_get.
    rewrite <- Hk in Hin. destruct (dict_get_In_keys r k Hin) as [v ->].
    reflexivity.
Qed.

Lemma project_narrow r (wide narrow : list string) :
  incl narrow wide -> project (project r wide) narrow = project r narrow.
Proof.
  intros Hi. apply project_onto_ext. intros col Hc.
  apply record_get_project. now apply Hi.
Qed.

End ProjectMore.

(** X20. [ensure_columns] works record by record: the projection of
    records put one after the other is the projections put one after the
    other, so projecting the accumulated result set equals projecting every
    batch on its own. *)
Theorem ensure_columns_append (first second : list record)
  (columns : list string) :
  ensure_columns (first ++ second) columns =
  ensure_columns first columns ++ ensure_columns second columns.
Proof. rewrite !ensure_columns_map. apply map_app. Qed.

(** X21. Projecting onto a list of columns and then onto columns taken
    from that list is the same as projecting onto the latter at once. *)
Theorem ensure_columns_narrow (records : list record)
  (wide narrow : list string) :
  incl narrow wide ->
  ensure_columns (ensure_columns records wide) narrow =
  ensure_columns records narrow.
Proof.
  intros Hi. rewrite !ensure_columns_map, map_map.
  apply map_ext. intros r. now apply project_narrow.
Qed.

(** X22. Records that already have exactly the columns as their keys, in
    the order of a column list without repetition, pass through
    [ensure_columns] unchanged. *)
Theorem ensure_columns_fixed (records : list record) (columns : list string) :
  NoDup columns ->
  Forall (fun r => keys r = columns) records ->
  ensure_columns records columns = records.
Proof.
  intros Hn Hall. rewrite ensure_columns_map.
  induction Hall as [|r records Hr _ IH]; simpl; [reflexivity|].
  now rewrite IH, project_fixed.
Qed.

(* ================================================================= *)
(** * Further properties of the run *)

Section TraceMore.



End TraceMore.

Section RunMore.

Context {Page Element : Type} `{PageDriver Page Element}.

(** X23. With no start URL (the key is missing or the list is empty) the
    run makes no call on the page and returns no record, whatever the
    mode: an unknown mode goes unnoticed. *)
Theorem main_without_start_urls (cfg : config) (w : World Page) :
  get_or (cfg_start_urls cfg) [] = [] ->
  main cfg w = (Return [], w).
Proof. intros Hu. unfold main. rewrite Hu. reflexivity. Qed.

(** X24. Whatever the run returns has the column schema: every record
    handed to the writer has exactly the configured columns as its keys
    (the default columns when none are configured), in their order. *)
Theorem main_output_columns (cfg : config) (w : World Page) :
  match fst (main cfg w) with
  | Return records =>
      Forall
        (fun r => keys r = distinct (get_or (cfg_columns cfg) DEFAULT_COLUMNS))
        records
  | Raise _ => True
  end.
Proof.
  unfold main, bind.
  destruct (visit_urls cfg (get_or (cfg_start_urls cfg) []) [] w)
    as [[all_records|e] w']; [|exact I].
  cbn [fst ret]. rewrite ensure_columns_map.
  apply Forall_forall. intros r Hr. apply in_map_iff in Hr as (r0 & <- & _).
  apply keys_project.
Qed.



End RunMore.

(* ================================================================= *)
(** * Further concrete runs on the scripted drivers *)

(** X6 at the item without descendants. *)
Lemma extract_value_descendant_missing_witness :
  el_query_selector "h1" Scripted.blank = None /\
  extract_value Scripted.blank (FieldSelector "h1") = None /\
  extract_value Scripted.blank (FieldMapping (Some "h1") (Some "href")) = None.
Proof.
  split; [reflexivity|].
  exact (extract_value_descendant_missing Scripted.blank "h1" (Some "href")
           eq_refl).
Defined.

(** X7 at the scenario's heading. *)
Lemma extract_value_mapping_without_attr_witness :
  PyStr.nonempty "h1" = true /\
  truthy (Some "") = false /\
  extract_value Scripted.acme (FieldMapping (Some "h1") (Some "")) =
  extract_value Scripted.acme (FieldSelector "h1").
Proof.
  split; [reflexivity|]. split; [reflexivity|].
  exact (extract_value_mapping_without_attr Scripted.acme "h1" (Some "")
           eq_refl eq_refl).
Defined.

(** X8 at a link whose mail address is not in [href]: the prefix stays. *)
Lemma extract_value_plain_attribute_witness :
  el_query_selector "a" mail_card =
    Some (Scripted.Node "mail" [("data-mail", "mailto:x@y.com")] []) /\
  "data-mail" <> "href" /\
  extract_value mail_card (FieldMapping (Some "a") (Some "data-mail")) =
    normalize_text (Some "mailto:x@y.com").
Proof.
  split; [reflexivity|]. split; [discriminate|].
  refine (extract_value_plain_attribute mail_card
            (Scripted.Node "mail" [("data-mail", "mailto:x@y.com")] [])
            "a" "data-mail" eq_refl eq_refl eq_refl (or_introl _)).
  discriminate.
Defined.

(** X11 with [max_scrolls] 0. *)
Lemma scroll_page_no_scrolls_witness :
  (get_or (sc_max_scrolls (scroll_only 0 3)) 50 <= 0)%Z /\
  scroll_page (scroll_only 0 3) grown_once = (Return tt, grown_once).
Proof.
  assert (Hmax : (get_or (sc_max_scrolls (scroll_only 0 3)) 50 <= 0)%Z)
    by (cbn; lia).
  split; [exact Hmax|].
  exact (scroll_page_no_scrolls (scroll_only 0 3) grown_once Hmax).
Defined.

(** X12 with [stop_after_unchanged] 0 on the growing page. *)
Lemma scroll_page_stops_at_once_witness :
  (get_or (sc_stop_after_unchanged (scroll_only 50 0)) 3 <= 0)%Z /\
  (0 < get_or (sc_max_scrolls (scroll_only 50 0)) 50)%Z /\
  heights_read (w_trace (snd (scroll_page (scroll_only 50 0) grown_once))) =
    [100%Z].
Proof.
  assert (Hstop : (get_or (sc_stop_after_unchanged (scroll_only 50 0)) 3 <= 0)%Z)
    by (cbn; lia).
  assert (Hmax : (0 < get_or (sc_max_scrolls (scroll_only 50 0)) 50)%Z)
    by (cbn; lia).
  split; [exact Hstop|]. split; [exact Hmax|].
  rewrite (scroll_page_stops_at_once (scroll_only 50 0) grown_once Hstop Hmax).
  reflexivity.
Defined.

(** X13 on the growing page. *)
Lemma scroll_page_early_stop_is_stable_witness :
  (0 < get_or (sc_stop_after_unchanged (scroll_only 50 3)) 3)%Z /\
  exists k : nat,
    heights_read (w_trace (snd (scroll_page (scroll_only 50 3) grown_once))) =
    readings 1200%Z k (w_page grown_once).
Proof.
  assert (Hstop : (0 < get_or (sc_stop_after_unchanged (scroll_only 50 3)) 3)%Z)
    by (cbn; lia).
  split; [exact Hstop|].
  destruct (scroll_page_early_stop_is_stable (scroll_only 50 3) grown_once Hstop)
    as (k & Hread & _).
  exists k. exact Hread.
Defined.

(** X27 on the growing page. *)
Lemma scroll_page_goes_on_until_stable_witness :
  (0 < get_or (sc_stop_after_unchanged (scroll_only 50 3)) 3)%Z /\
  exists k : nat,
    fst (scroll_page (scroll_only 50 3) grown_once) = Return tt /\
    forall j : nat,
      0 < j < k ->
      ~ exists (front : list Z) (h : Z),
          0%Z :: readings 1200%Z j (w_page grown_once) = front ++ repeat h 4.
Proof.
  assert (Hstop : (0 < get_or (sc_stop_after_unchanged (scroll_only 50 3)) 3)%Z)
    by (cbn; lia).
  split; [exact Hstop|].
  destruct (scroll_page_goes_on_until_stable (scroll_only 50 3) grown_once Hstop)
    as (k & Hrun & Hon).
  exists k. split; [now rewrite Hrun | exact Hon].
Defined.

(** X14 with [max_pages] 0 and a next-button selector. *)
Lemma paginate_no_pages_witness :
  (get_or (pg_max_pages (click_pages 0)) 50 <= 0)%Z /\
  paginate (click_pages 0) (extract_items (config_with_mode "pagination" []))
    two_items = (Return [], two_items).
Proof.
  assert (Hmax : (get_or (pg_max_pages (click_pages 0)) 50 <= 0)%Z)
    by (cbn; lia).
  split; [exact Hmax|].
  exact (paginate_no_pages (click_pages 0)
           (extract_items (config_with_mode "pagination" [])) two_items Hmax).
Defined.

(** X15 with a configuration that has no extraction schema. *)
Lemma paginate_callback_raises_witness :
  (0 < get_or (pg_max_pages (click_pages 3)) 50)%Z /\
  extract_items config_without_schema two_items =
    (Raise (KeyError "extraction"), two_items) /\
  paginate (click_pages 3) (extract_items config_without_schema) two_items =
    (Raise (KeyError "extraction"), two_items).
Proof.
  assert (Hmax : (0 < get_or (pg_max_pages (click_pages 3)) 50)%Z)
    by (cbn; lia).
  split; [exact Hmax|]. split; [reflexivity|].
  exact (paginate_callback_raises (click_pages 3)
           (extract_items config_without_schema) two_items two_items
           (KeyError "extraction") Hmax eq_refl).
Defined.

(** X16 on the page without controls. *)
Lemma paginate_next_control_absent_witness :
  (0 < get_or (pg_max_pages (click_pages 3)) 50)%Z /\
  drv_query_selector "a.next" (w_page two_items) = None /\
  w_trace
    (snd (paginate (click_pages 3)
            (extract_items (config_with_mode "pagination" [])) two_items)) =
    [QuerySelectorAll "div.item"; QuerySelector "a.next"].
Proof.
  assert (Hmax : (0 < get_or (pg_max_pages (click_pages 3)) 50)%Z)
    by (cbn; lia).
  split; [exact Hmax|]. split; [reflexivity|].
  assert (Hcb :
    extract_items (config_with_mode "pagination" []) two_items =
    (Return
       (records_on "div.item"
          [("name", FieldSelector "h1");
           ("email", FieldMapping (Some "a.mail") (Some "href"))]
          (w_page two_items)),
     {| w_page := w_page two_items;
        w_trace := [QuerySelectorAll "div.item"] |})) by reflexivity.
  assert (Hq : drv_query_selector "a.next" (w_page two_items) = None)
    by reflexivity.
  rewrite (paginate_next_control_absent (click_pages 3)
             (extract_items (config_with_mode "pagination" [])) "a.next"
             _ two_items _ Hmax eq_refl eq_refl Hcb Hq).
  reflexivity.
Defined.

(** X17 on the endless listing with [max_pages] 3. *)
Lemma paginate_bounded_witness :
  cfg_extraction (config_with_mode "pagination" []) = Some acme_schema /\
  exists (records : list record) (more : list event),
    fst (paginate (click_pages 3)
           (extract_items (config_with_mode "pagination" []))
           (Scripted.start endless_listing)) = Return records /\
    (Z.of_nat (extractions more) <= 3)%Z.
Proof.
  split; [reflexivity|].
  destruct (paginate_bounded (click_pages 3)
              (config_with_mode "pagination" []) acme_schema "div.item"
              [("name", FieldSelector "h1");
               ("email", FieldMapping (Some "a.mail") (Some "href"))]
              (Scripted.start endless_listing) eq_refl eq_refl eq_refl)
    as (records & more & p & Hrun & Hle & _).
  exists records, more. split; [now rewrite Hrun | exact Hle].
Defined.

(** X18 without a template. *)
Lemma paginate_by_url_without_template_witness :
  truthy (pg_url_template (single_page None)) = false /\
  paginate_by_url (single_page None)
    (extract_items (config_with_mode "pagination" [])) two_items =
    (Return [], two_items).
Proof.
  split; [reflexivity|].
  exact (paginate_by_url_without_template (single_page None)
           (extract_items (config_with_mode "pagination" [])) two_items
           eq_refl).
Defined.


(** X26 on the endless listing with [max_pages] 3: three extractions and
    three clicks. *)
Lemma paginate_clicks_through_witness :
  pages_clicked 3 "a.next" 1500%Z endless_listing =
    Some ([endless_listing; endless_listing; endless_listing], endless_listing) /\
  w_trace
    (snd (paginate (click_pages 3)
            (extract_items (config_with_mode "pagination" []))
            (Scripted.start endless_listing))) =
    click_page_events "div.item" "a.next" 1500%Z
      ++ click_page_events "div.item" "a.next" 1500%Z
      ++ click_page_events "div.item" "a.next" 1500%Z.
Proof.
  split; [reflexivity|].
  assert (Hpages :
    pages_clicked (Z.to_nat (get_or (pg_max_pages (click_pages 3)) 50%Z))
      "a.next" (get_or (pg_pause_ms (click_pages 3)) 1500%Z)
      (w_page (Scripted.start endless_listing)) =
    Some ([endless_listing; endless_listing; endless_listing], endless_listing))
    by reflexivity.
  destruct (paginate_clicks_through (click_pages 3)
              (config_with_mode "pagination" []) acme_schema "div.item" "a.next"
              [("name", FieldSelector "h1");
               ("email", FieldMapping (Some "a.mail") (Some "href"))]
              (Scripted.start endless_listing)
              [endless_listing; endless_listing; endless_listing]
              endless_listing eq_refl eq_refl eq_refl eq_refl eq_refl Hpages)
    as [Hrun _].
  rewrite Hrun. reflexivity.
Defined.

(** X21 with the columns name, email, phone narrowed to email. *)
Lemma ensure_columns_narrow_witness :
  incl ["email"] ["name"; "email"; "phone"] /\
  ensure_columns
    (ensure_columns [[("name", Some "Acme Corp"); ("web", Some "acme.com")]]
       ["name"; "email"; "phone"]) ["email"] =
  ensure_columns [[("name", Some "Acme Corp"); ("web", Some "acme.com")]]
    ["email"].
Proof.
  assert (Hi : incl ["email"] ["name"; "email"; "phone"]).
  { intros c [<-|[]]. right. now left. }
  split; [exact Hi|].
  exact (ensure_columns_narrow
           [[("name", Some "Acme Corp"); ("web", Some "acme.com")]]
           ["name"; "email"; "phone"] ["email"] Hi).
Defined.

(** X22 with a record that has the two columns already. *)
Lemma ensure_columns_fixed_witness :
  NoDup ["name"; "email"] /\
  ensure_columns [[("name", Some "Acme Corp"); ("email", None)]]
    ["name"; "email"] = [[("name", Some "Acme Corp"); ("email", None)]].
Proof.
  assert (Hn : NoDup ["name"; "email"]).
  { constructor; [intros [H|[]]; discriminate|].
    constructor; [intros []|constructor]. }
  split; [exact Hn|].
  apply (ensure_columns_fixed
           [[("name", Some "Acme Corp"); ("email", None)]] ["name"; "email"] Hn).
  constructor; [reflexivity | constructor].
Defined.

(** X23 with an unknown mode and no start URL: no error. *)
Lemma main_without_start_urls_witness :
  get_or (cfg_start_urls (config_with_mode "bogus" [])) [] = [] /\
  main (config_with_mode "bogus" []) two_items = (Return [], two_items).
Proof.
  split; [reflexivity|].
  exact (main_without_start_urls (config_with_mode "bogus" []) two_items
           eq_refl).
Defined.

